(** * CSAT-Solver: record normaliser, prompt builder, length filter and
      choice scorer of [src/main.py], embedded in Rocq.

    The Python functions are translated as pure functions.  A Python
    exception is a value [Raise e] of the error monad [result]; the objects
    of external libraries (the tokenizer's vocabulary, [str.format],
    [ast.literal_eval], the float kernels of torch) are section variables or
    class parameters, so every statement holds for each of their
    implementations. *)

From Stdlib Require Import ZArith QArith Qround Lia Ascii String DecimalString.
From Stdlib Require Import DecimalNat DecimalPos DecimalZ.
From stdpp Require Import base option list strings gmap sorting.

Local Open Scope string_scope.
Local Open Scope list_scope.

(* ===================================================================== *)
(** ** Python values, exceptions and the built-ins the script relies on  *)
(* ===================================================================== *)

Module Py.

(** The exceptions the modelled code can raise.  [ParseError] stands for
    the [ValueError] / [SyntaxError] that [ast.literal_eval] raises on a
    string that is not a Python literal. *)
Inductive exn : Type :=
| ParseError
| KeyError (key : string)
| IndexError
| TypeError
| ValueError
| EOFError
| TemplateError.

Inductive result (A : Type) : Type :=
| Ok (a : A)
| Raise (e : exn).
Arguments Ok {A} a.
Arguments Raise {A} e.

Definition bind {A B : Type} (c : result A) (k : A -> result B) : result B :=
  match c with
  | Ok a => k a
  | Raise e => Raise e
  end.

Notation "x <- c ;; k" := (bind c (fun x => k))
  (at level 100, c at next level, right associativity).

(** [[f(x) for x in l]] where [f] may raise: the first exception wins. *)
Fixpoint mapM {A B : Type} (f : A -> result B) (l : list A) : result (list B) :=
  match l with
  | [] => Ok []
  | x :: r => y <- f x ;; ys <- mapM f r ;; Ok (y :: ys)
  end.

(** Literals as [ast.literal_eval] returns them.  A dict is the sequence of
    its items in source order. *)
#[warnings="-register-all"]
Inductive pyval : Type :=
| PyNone
| PyInt (z : Z)
| PyStr (s : string)
| PyList (items : list pyval)
| PyDict (items : list (pyval * pyval)).

Definition is_key (k : string) (v : pyval) : bool :=
  match v with
  | PyStr s => String.eqb s k
  | _ => false
  end.

(** Lookup of a string key among the items of a dict display; a later item
    with the same key overrides an earlier one. *)
Fixpoint dict_lookup (k : string) (items : list (pyval * pyval)) : option pyval :=
  match items with
  | [] => None
  | (k', v) :: r =>
      match dict_lookup k r with
      | Some w => Some w
      | None => if is_key k k' then Some v else None
      end
  end.

(** [problems[k]]: subscripting anything but a dict by a string is a
    [TypeError], a missing key is a [KeyError]. *)
Definition getitem (v : pyval) (k : string) : result pyval :=
  match v with
  | PyDict items =>
      match dict_lookup k items with
      | Some w => Ok w
      | None => Raise (KeyError k)
      end
  | _ => Raise TypeError
  end.

(** [problems.get(k, None)].  Of the literals modelled here only dicts have
    the method; [record_to_df] reaches the call with a dict only, since
    [problems['question']] has failed before on anything else. *)
Definition get (v : pyval) (k : string) (default : pyval) : result pyval :=
  match v with
  | PyDict items =>
      match dict_lookup k items with
      | Some w => Ok w
      | None => Ok default
      end
  | _ => Raise TypeError
  end.

(** [k in problems]. *)
Definition contains (v : pyval) (k : string) : result bool :=
  match v with
  | PyDict items => Ok (bool_decide (is_Some (dict_lookup k items)))
  | PyList items => Ok (existsb (is_key k) items)
  | PyStr s => Ok (bool_decide (is_Some (index 0 k s)))
  | _ => Raise TypeError
  end.

(** [str(n)] for the integers the script formats. *)
Definition str_of_nat (n : nat) : string := NilZero.string_of_uint (Nat.to_uint n).
Definition str_of_Z (z : Z) : string := NilZero.string_of_int (Z.to_int z).

(** [f"{answer}"] for an optional integer: [None] prints as its name. *)
Definition str_of_answer (a : option Z) : string :=
  match a with
  | Some z => str_of_Z z
  | None => "None"
  end.

Definition newline : ascii := ascii_of_nat 10.
Definition NL : string := String newline EmptyString.

(** [enumerate(l)]. *)
Fixpoint enumerate_from {A : Type} (start : nat) (l : list A) : list (nat * A) :=
  match l with
  | [] => []
  | x :: r => (start, x) :: enumerate_from (S start) r
  end.

Definition enumerate {A : Type} (l : list A) : list (nat * A) := enumerate_from 0 l.

(** [sep.join(l)]. *)
Definition join (sep : string) (l : list string) : string := String.concat sep l.

(** [s.split("\n")]: the pieces between newlines; the empty string has one
    (empty) piece. *)
Fixpoint split_lines (s : string) : list string :=
  match s with
  | EmptyString => [EmptyString]
  | String c r =>
      if Ascii.eqb c newline then EmptyString :: split_lines r
      else match split_lines r with
           | h :: t => String c h :: t
           | [] => [String c EmptyString]
           end
  end.

Fixpoint has_newline (s : string) : bool :=
  match s with
  | EmptyString => false
  | String c r => Ascii.eqb c newline || has_newline r
  end.

(** Truth value of an optional string: [None] and [""] are false. *)
Definition truthy (s : option string) : bool :=
  match s with
  | Some t => negb (String.eqb t "")
  | None => false
  end.

(** [l.index(x)]: first position, [ValueError] when absent. *)
Fixpoint list_index (x : string) (l : list string) : result nat :=
  match l with
  | [] => Raise ValueError
  | y :: r => if String.eqb y x then Ok 0 else i <- list_index x r ;; Ok (S i)
  end.

(** [l[i]] for a non-negative index. *)
Definition list_getitem {A : Type} (l : list A) (i : nat) : result A :=
  match l !! i with
  | Some a => Ok a
  | None => Raise IndexError
  end.

(** [l[-k]] for [k >= 1]: position [len(l) - k]. *)
Definition list_getitem_neg {A : Type} (l : list A) (k : nat) : result A :=
  if Nat.ltb (List.length l) k then Raise IndexError
  else list_getitem l (List.length l - k).

End Py.
Import Py.

(* ===================================================================== *)
(** ** Record Normalizer: [record_to_df]                                  *)
(* ===================================================================== *)

Module Normalizer.

(** A row of the input table: the columns [id], [paragraph], [problems]. *)
Record RawRow : Type := mkRawRow {
  row_id : string;
  row_paragraph : string;
  row_problems : string;
}.

(** The dict [record] built for each row.  The four values taken from the
    decoded structure are stored as they come, without any check. *)
Record FlatRecord : Type := mkFlatRecord {
  rec_id : string;
  rec_paragraph : string;
  rec_question : pyval;
  rec_choices : pyval;
  rec_answer : pyval;
  rec_question_plus : pyval;
}.

Section WithDecoder.

(** [ast.literal_eval]: [None] when it raises. *)
Variable literal_eval : string -> option pyval.

Definition decode (s : string) : result pyval :=
  match literal_eval s with
  | Some v => Ok v
  | None => Raise ParseError
  end.

(** The body of the loop of [record_to_df], one row. *)
Definition record_of_row (row : RawRow) : result FlatRecord :=
  problems <- decode (row_problems row) ;;
  question <- getitem problems "question" ;;
  choices <- getitem problems "choices" ;;
  answer <- get problems "answer" PyNone ;;
  question_plus <- get problems "question_plus" PyNone ;;
  let record := mkFlatRecord (row_id row) (row_paragraph row)
                             question choices answer question_plus in
  present <- contains problems "question_plus" ;;
  if (present : bool) then
    v <- getitem problems "question_plus" ;;
    Ok (mkFlatRecord (rec_id record) (rec_paragraph record) (rec_question record)
                     (rec_choices record) (rec_answer record) v)
  else Ok record.

Definition record_to_df (dataset : list RawRow) : result (list FlatRecord) :=
  mapM record_of_row dataset.

End WithDecoder.

(** The decoder on the literals used in the examples below, each decoded
    as Python decodes it; every other string is taken as undecodable. *)
Definition sample_problems_full : string :=
  "{'question': 'Q', 'choices': ['A', 'B'], 'answer': 2, 'question_plus': 'P'}".
Definition sample_problems_plain : string :=
  "{'question': 'Q', 'choices': ['A', 'B'], 'answer': 2}".
Definition sample_problems_no_question : string :=
  "{'choices': ['A', 'B'], 'answer': 2}".

Definition sample_literal_eval (s : string) : option pyval :=
  if String.eqb s sample_problems_full then
    Some (PyDict [(PyStr "question", PyStr "Q");
                  (PyStr "choices", PyList [PyStr "A"; PyStr "B"]);
                  (PyStr "answer", PyInt 2);
                  (PyStr "question_plus", PyStr "P")])
  else if String.eqb s sample_problems_plain then
    Some (PyDict [(PyStr "question", PyStr "Q");
                  (PyStr "choices", PyList [PyStr "A"; PyStr "B"]);
                  (PyStr "answer", PyInt 2)])
  else if String.eqb s sample_problems_no_question then
    Some (PyDict [(PyStr "choices", PyList [PyStr "A"; PyStr "B"]);
                  (PyStr "answer", PyInt 2)])
  else None.

End Normalizer.

(* ===================================================================== *)
(** ** Prompt Builder: [train_df_to_process_df], [test_df_to_process_df]  *)
(* ===================================================================== *)

Module Prompt.

(** A record as the builders read it.  The builders format the choices and
    the answer into strings and test [question_plus] for truth; they are
    stated over records whose fields have the types of the data model:
    the choices are strings, the answer is an optional integer,
    [question_plus] an optional string. *)
Record ExamRecord : Type := mkExamRecord {
  id : string;
  paragraph : string;
  question : string;
  choices : list string;
  answer : option Z;
  question_plus : option string;
}.

Inductive Role : Type := system | user | assistant.

Record PromptMessage : Type := mkMessage {
  role : Role;
  content : string;
}.

(** An element of [processed_dataset]. *)
Record TrainExample : Type := mkTrainExample {
  train_id : string;
  train_messages : list PromptMessage;
  train_label : option Z;
}.

(** An element of [test_dataset]. *)
Record InferenceItem : Type := mkInferenceItem {
  item_id : string;
  item_messages : list PromptMessage;
  item_label : option Z;
  len_choices : nat;
}.

Definition system_prompt : string := "지문을 읽고 질문의 답을 구하세요.".

(** [f"{idx + 1} - {choice}"]. *)
Definition choice_entry (p : nat * string) : string :=
  str_of_nat (fst p + 1) +:+ " - " +:+ snd p.

(** ["\n".join([f"{idx + 1} - {choice}" for idx, choice in enumerate(choices)])]. *)
Definition choices_string (cs : list string) : string :=
  join NL (map choice_entry (enumerate cs)).

Section WithFormat.

(** [template.format] applied to keyword arguments: the rendered string,
    or the exception. *)
Variable format : string -> list (string * string) -> result string.

Definition user_message (q_plus no_q_plus : string) (r : ExamRecord) : result string :=
  if truthy (question_plus r) then
    format q_plus [("paragraph", paragraph r);
                   ("question", question r);
                   ("question_plus", default "" (question_plus r));
                   ("choices", choices_string (choices r))]
  else
    format no_q_plus [("paragraph", paragraph r);
                      ("question", question r);
                      ("choices", choices_string (choices r))].

Definition train_example (q_plus no_q_plus : string) (r : ExamRecord) : result TrainExample :=
  msg <- user_message q_plus no_q_plus r ;;
  Ok (mkTrainExample (id r)
        [mkMessage system system_prompt;
         mkMessage user msg;
         mkMessage assistant (str_of_answer (answer r))]
        (answer r)).

Definition train_df_to_process_df (dataset : list ExamRecord) (q_plus no_q_plus : string)
  : result (list TrainExample) :=
  mapM (train_example q_plus no_q_plus) dataset.

Definition inference_item (q_plus no_q_plus : string) (row : ExamRecord) : result InferenceItem :=
  let choices_string := choices_string (choices row) in
  let len_choices := List.length (choices row) in
  msg <- user_message q_plus no_q_plus row ;;
  Ok (mkInferenceItem (id row)
        [mkMessage system system_prompt;
         mkMessage user msg]
        (answer row)
        len_choices).

Definition test_df_to_process_df (dataset : list ExamRecord) (q_plus no_q_plus : string)
  : result (list InferenceItem) :=
  mapM (inference_item q_plus no_q_plus) dataset.

End WithFormat.

(** Named replacement fields only ([{name}], no escapes, no conversions):
    the fragment of [str.format] the prompt templates use. *)
Fixpoint format_fields (kwargs : list (string * string)) (field : option string)
  (template : string) : result string :=
  match template with
  | EmptyString =>
      match field with
      | None => Ok EmptyString
      | Some _ => Raise ValueError
      end
  | String c rest =>
      match field with
      | Some name =>
          if Ascii.eqb c "}" then
            match List.find (fun kv => String.eqb (fst kv) name) kwargs with
            | Some kv => out <- format_fields kwargs None rest ;; Ok (snd kv +:+ out)
            | None => Raise (KeyError name)
            end
          else format_fields kwargs (Some (name +:+ String c EmptyString)) rest
      | None =>
          if Ascii.eqb c "{" then format_fields kwargs (Some EmptyString) rest
          else out <- format_fields kwargs None rest ;; Ok (String c out)
      end
  end.

Definition sample_format (template : string) (kwargs : list (string * string)) : result string :=
  format_fields kwargs None template.

(** Templates and records for the examples. *)
Definition sample_no_q_plus : string := "Passage: {paragraph} Question: {question} Choices: {choices}".
Definition sample_q_plus : string :=
  "Passage: {paragraph} Question: {question} Exhibit: {question_plus} Choices: {choices}".

Definition sample_record : ExamRecord :=
  mkExamRecord "row-0" "a passage" "a question" ["A"; "B"; "C"; "D"] (Some 3%Z) None.


(** Two choices, the first of which runs over two lines. *)
Definition choices_with_newline : list string := ["a" +:+ NL +:+ "b"; "c"].


End Prompt.

(* ===================================================================== *)
(** ** Tokenize and filter: the length filter of [main]                   *)
(* ===================================================================== *)

Module Pipeline.

Record TokenizedExample : Type := mkTokenized {
  input_ids : list nat;
  attention_mask : list nat;
}.

(** [tokenized_dataset.filter(lambda x: len(x["input_ids"]) <= mex_seq_len)]. *)
Definition filter_max_len (mex_seq_len : nat) (tokenized_dataset : list TokenizedExample)
  : list TokenizedExample :=
  filter (fun x => List.length (input_ids x) <= mex_seq_len) tokenized_dataset.

(** The complement: what the filter drops. *)
Definition dropped (mex_seq_len : nat) (tokenized_dataset : list TokenizedExample)
  : list TokenizedExample :=
  filter (fun x => ~ List.length (input_ids x) <= mex_seq_len) tokenized_dataset.

End Pipeline.

(* ===================================================================== *)
(** ** Choice Scorer: inference loop and evaluation metrics               *)
(* ===================================================================== *)

Module Scorer.

(** The float operations the scorer uses, kept abstract: what is proved
    about the scorer holds for every interpretation of them. *)
Class Scalar (T : Type) : Type := {
  s_zero : T;
  s_add : T -> T -> T;
  s_exp : T -> T;
  s_div : T -> T -> T;
  s_gtb : T -> T -> bool;
}.

Section WithScalar.

Context {T : Type} `{Scalar T}.

(** [torch.nn.functional.softmax(x, dim=-1)] on a vector. *)
Definition softmax (x : list T) : list T :=
  let e := map s_exp x in
  let total := foldr s_add s_zero e in
  map (fun v => s_div v total) e.

(** [np.argmax]: the first position holding the largest value. *)
Fixpoint argmax_from (best_i : nat) (best : T) (i : nat) (l : list T) : nat :=
  match l with
  | [] => best_i
  | v :: r =>
      if s_gtb v best then argmax_from i v (S i) r
      else argmax_from best_i best (S i) r
  end.

Definition argmax (l : list T) : result nat :=
  match l with
  | [] => Raise ValueError
  | v :: r => Ok (argmax_from 0 v 1 r)
  end.

(** [tokenizer.vocab[tok]]. *)
Definition vocab_get (vocab : gmap string nat) (tok : string) : result nat :=
  match vocab !! tok with
  | Some i => Ok i
  | None => Raise (KeyError tok)
  end.

(** [pred_choices_map = {0: "1", 1: "2", 2: "3", 3: "4", 4: "5"}]. *)
Definition pred_choices_map : gmap nat string :=
  {[ 0 := "1"; 1 := "2"; 2 := "3"; 3 := "4"; 4 := "5" ]}.

Definition pred_choice (i : nat) : result string :=
  match pred_choices_map !! i with
  | Some d => Ok d
  | None => Raise (KeyError (str_of_nat i))
  end.

(** [outputs.logits[:, -1].flatten()]: the vocabulary-sized vectors at the
    last position, one per element of the batch, laid end to end. *)
Definition last_position (output : list (list (list T))) : result (list T) :=
  rows <- mapM (fun example => list_getitem_neg example 1) output ;;
  Ok (concat rows).

(** [[logits[tokenizer.vocab[str(i + 1)]] for i in range(len_choices)]]. *)
Definition target_logit_list (vocab : gmap string nat) (logits : list T) (len_choices : nat)
  : result (list T) :=
  mapM (fun i => k <- vocab_get vocab (str_of_nat (i + 1)) ;; list_getitem logits k)
       (seq 0 len_choices).

(** The scoring steps of the inference loop, from the flattened logits to
    [predict_value]. *)
Definition predict_value (vocab : gmap string nat) (logits : list T) (len_choices : nat)
  : result string :=
  target <- target_logit_list vocab logits len_choices ;;
  let probs := softmax target in
  k <- argmax probs ;;
  pred_choice k.

Definition infer (vocab : gmap string nat) (output : list (list (list T))) (len_choices : nat)
  : result string :=
  logits <- last_position output ;;
  predict_value vocab logits len_choices.

(** The first argument of [preprocess_logits_for_metrics]: a tensor of
    shape (batch, position, vocabulary) or a tuple whose head is one. *)
Inductive LogitsArg : Type :=
| Tensor (t : list (list (list T)))
| Tuple (ts : list (list (list (list T)))).

Definition digit_tokens : list string := ["1"; "2"; "3"; "4"; "5"].

(** [preprocess_logits_for_metrics(logits, labels)]. *)
Definition preprocess_logits_for_metrics {L : Type} (vocab : gmap string nat)
  (logits : LogitsArg) (labels : L) : result (list (list T)) :=
  logits <- match logits with
            | Tensor t => Ok t
            | Tuple ts => list_getitem ts 0
            end ;;
  logit_idx <- mapM (vocab_get vocab) digit_tokens ;;
  mapM (fun example =>
          row <- list_getitem_neg example 2 ;;
          mapM (list_getitem row) logit_idx)
       logits.

(** The predictions of [compute_metrics]: softmax over each row kept by
    [preprocess_logits_for_metrics], then the position of the maximum. *)
Definition compute_metrics_predictions (logits : list (list T)) : result (list nat) :=
  mapM (fun row => argmax (softmax row)) logits.

(** Training evaluation, from the model output to the predictions. *)
Definition eval_predictions {L : Type} (vocab : gmap string nat) (logits : LogitsArg)
  (labels : L) : result (list nat) :=
  kept <- preprocess_logits_for_metrics vocab logits labels ;;
  compute_metrics_predictions kept.

End WithScalar.

(** The digits a record with [n] choices offers: ["1"], ..., [str(n)]. *)
Definition valid_digits (n : nat) : list string :=
  map (fun i => str_of_nat (i + 1)) (seq 0 n).

(** The answer digit a 0-indexed prediction stands for. *)
Definition digit_of_prediction (k : nat) : string := str_of_nat (k + 1).

(** Exact rational scores, with powers of two in place of the exponential:
    the interpretation the examples are evaluated in. *)
#[export] Instance QScalar : Scalar Q := {
  s_zero := 0%Q;
  s_add := Qplus;
  s_exp := fun q => Qpower 2%Q (Qfloor q);
  s_div := Qdiv;
  s_gtb := fun a b => negb (Qle_bool a b);
}.

(** A vocabulary of seven tokens in which the digits have ids 2 to 6. *)
Definition sample_vocab : gmap string nat :=
  {[ "<pad>" := 0; "<eos>" := 1; "1" := 2; "2" := 3; "3" := 4; "4" := 5; "5" := 6 ]}.

(** Logits over the sample vocabulary: the digits ["1"] to ["5"] (ids 2
    to 6) score 1, 5, 3, 2 and 7. *)
Definition sample_logits : list Q := [0; 0; 1; 5; 3; 2; 7]%Q.

End Scorer.

(* ===================================================================== *)
(** ** Entry point and the guarded block of [main]                        *)
(* ===================================================================== *)

Module Cli.

Definition SEED : nat := 2024.

(** What a run shows: a prompt on the terminal, a logged error, the
    release of the accelerator cache. *)
Inductive event : Type :=
| Prompted (msg : string)
| LoggedError (e : exn)
| EmptiedCache.

Definition missing_prompt : string := "run name is missing, please add run name : ".

(** The [try] part of the entry point:
    [sys.argv[sys.argv.index('--run_name') + 1]]. *)
Definition argv_run_name (argv : list string) : result string :=
  argv_run_index <- (i <- list_index "--run_name" argv ;; Ok (i + 1)) ;;
  list_getitem argv argv_run_index.

(** The [while argv_run_name == '':] loop over the lines that [input]
    reads; at the end of the input [input] raises [EOFError]. *)
Fixpoint ask_run_name (stdin : list string) : list event * result string :=
  match stdin with
  | [] => ([Prompted missing_prompt], Raise EOFError)
  | line :: rest =>
      if String.eqb line "" then
        let '(shown, r) := ask_run_name rest in (Prompted missing_prompt :: shown, r)
      else ([Prompted missing_prompt], Ok line)
  end.

(** The entry point up to the call of [main]: the events so far and the
    arguments [(run_name, debug)] of the call, or the uncaught exception.
    Only [ValueError] is handled. *)
Definition entry (argv stdin : list string) : list event * result (string * bool) :=
  match argv_run_name argv with
  | Ok name => ([], Ok (name, true))
  | Raise ValueError =>
      let '(shown, r) := ask_run_name stdin in
      (shown, name <- r ;; Ok (name, true))
  | Raise e => ([], Raise e)
  end.

Section WithSample.

Context {Row : Type}.

(** [DataFrame.sample(n, random_state=seed)]: the sampled rows, or the
    exception it raises. *)
Variable sample : nat -> nat -> list Row -> result (list Row).

(** [dataset.sample(500, random_state=SEED).reset_index(drop=True) if debug
    else dataset]; renumbering the index leaves the rows as they are. *)
Definition load_dataset (debug : bool) (dataset : list Row) : result (list Row) :=
  if debug then sample 500 SEED dataset else Ok dataset.

(** The table handed to [record_to_df] by a run from the command line. *)
Definition cli_dataset (argv stdin : list string) (dataset : list Row) : result (list Row) :=
  call <- snd (entry argv stdin) ;;
  load_dataset (snd call) dataset.

End WithSample.

(** [try: body  except Exception as e: logging.error(..); raise e
    finally: torch.cuda.empty_cache()], for a body that ran with the
    events [fst body] and ended as [snd body]. *)
Definition guarded (body : list event * result unit) : list event * result unit :=
  match snd body with
  | Ok _ => (fst body ++ [EmptiedCache], Ok tt)
  | Raise e => (fst body ++ [LoggedError e; EmptiedCache], Raise e)
  end.

(** A sampler meeting the size contract, for the examples: it fails when
    asked for more rows than there are, else keeps [n] rows starting at a
    position fixed by the seed. *)
Definition sample_rows {Row : Type} (n seed : nat) (rows : list Row) : result (list Row) :=
  if Nat.ltb (List.length rows) n then Raise ValueError
  else Ok (take n (rotate (seed `mod` S (List.length rows)) rows)).

End Cli.

(* ===================================================================== *)
(** ** Set-up of [main]: run name, quantization, checkpoint              *)
(* ===================================================================== *)

Module Setup.

(** ["[train]" if do_train else "[eval]" if do_eval else "[pred]"]. *)
Definition project_prefix (do_train do_eval : bool) : string :=
  if do_train then "[train]" else if do_eval then "[eval]" else "[pred]".

(** The name given to [wandb.init]: [f"{project_prefix}_{run_name}"]. *)
Definition wandb_name (do_train do_eval : bool) (run_name : string) : string :=
  project_prefix do_train do_eval +:+ "_" +:+ run_name.

(** The two values given as [torch_dtype]. *)
Inductive Dtype : Type := dtype_auto | dtype_float16.

Section Quantization.

(** The configuration objects of [custom_args], and the test
    [isinstance(c, BitsAndBytesConfig)] on them. *)
Context {Config : Type}.
Variable is_bnb : Config -> bool.

Definition isinstance_bnb (quant_config : option Config) : bool :=
  match quant_config with
  | Some c => is_bnb c
  | None => false
  end.

(** [quant_config = None], then the [if quant == 4: ... elif quant == 8:]. *)
Definition select_quant_config (quant : option Z)
  (quant_4_bit_config quant_8_bit_config : option Config) : option Config :=
  if bool_decide (quant = Some 4%Z) then quant_4_bit_config
  else if bool_decide (quant = Some 8%Z) then quant_8_bit_config
  else None.

(** The keyword arguments [torch_dtype] and [quantization_config] of the
    two [from_pretrained] calls. *)
Record LoadArgs : Type := mkLoadArgs {
  torch_dtype : option Dtype;
  quantization_config : option Config;
}.

Definition from_pretrained_args (do_train : bool) (quant_config : option Config) : LoadArgs :=
  mkLoadArgs
    (if negb (isinstance_bnb quant_config)
     then Some (if do_train then dtype_auto else dtype_float16)
     else None)
    (if isinstance_bnb quant_config then quant_config else None).

End Quantization.

(** [sorted(entries)] on strings.  The order is that of the characters,
    which on the bytes of UTF-8 text is the order of the bytes; the order
    being total and antisymmetric, the sorted list does not depend on the
    sorting algorithm. *)
Definition sorted (entries : list string) : list string := merge_sort String.le entries.

(** [sorted(os.listdir(path))[-1]] for the listing [entries]. *)
Definition latest_ckpt (entries : list string) : result string :=
  list_getitem_neg (sorted entries) 1.

End Setup.

(* ===================================================================== *)
(** ** The inference loop of [main]                                       *)
(* ===================================================================== *)

Module Inference.
Import Prompt Scorer.

(** A row of [infer_results]. *)
Record Prediction : Type := mkPrediction {
  pred_id : string;
  pred_answer : string;
}.

(** How the loop can end early: an exception of the scoring steps or of
    the model call, or the [NameError] of a name that is bound nowhere. *)
Inductive failure : Type :=
| Raised (e : exn)
| NameError (name : string).

(** The end of the prediction branch: the rows written to
    [predictions.csv], or the failure that left the loop (nothing is
    written then: the file is written after the loop). *)
Inductive outcome : Type :=
| Written (rows : list Prediction)
| Failed (f : failure).

Section Loop.

Context {T : Type} `{Scalar T}.

Variable vocab : gmap string nat.

(** [model(tokenizer.apply_chat_template(messages, ...)).logits]. *)
Variable model_logits : list PromptMessage -> result (list (list (list T))).

(** [custom_args.do_RAG]. *)
Variable do_RAG : bool.

(** One turn of [for data in tqdm(test_dataset)].  With [do_RAG] the
    first statement builds [HybridSearch(..., context_path=args.context_path)],
    and [args] is bound neither in [main] nor in the module. *)
Definition infer_item (data : InferenceItem) : failure + Prediction :=
  let _id := item_id data in
  let messages := item_messages data in
  let len_choices := len_choices data in
  if do_RAG then inl (NameError "args")
  else
    match (output <- model_logits messages ;; infer vocab output len_choices) with
    | Ok predict_value => inr (mkPrediction _id predict_value)
    | Raise e => inl (Raised e)
    end.

(** The loop, with [infer_results] as accumulator. *)
Fixpoint inference_loop (test_dataset : list InferenceItem) (infer_results : list Prediction)
  : outcome :=
  match test_dataset with
  | [] => Written infer_results
  | data :: rest =>
      match infer_item data with
      | inr row => inference_loop rest (infer_results ++ [row])
      | inl f => Failed f
      end
  end.

(** The loop from [infer_results = []]. *)
Definition predict (test_dataset : list InferenceItem) : outcome :=
  inference_loop test_dataset [].

End Loop.

(** A vocabulary without the digit ["5"]. *)
Definition four_digit_vocab : gmap string nat :=
  {[ "<pad>" := 0; "<eos>" := 1; "1" := 2; "2" := 3; "3" := 4; "4" := 5 ]}.

(** A model whose logits do not depend on the prompt: one batch element,
    two positions, the sample logits last. *)
Definition sample_model (messages : list PromptMessage) : result (list (list (list Q))) :=
  Ok [[[0; 0; 0; 0; 0; 0; 0]%Q; sample_logits]].

End Inference.

(* ===================================================================== *)
(** * Properties                                                          *)
(* ===================================================================== *)

(** ** The error monad and the string built-ins *)

Module PyFacts.

Lemma bind_Ok {A B : Type} (c : result A) (k : A -> result B) (b : B) :
  bind c k = Ok b <-> exists a, c = Ok a /\ k a = Ok b.
Proof.
  destruct c as [a|e]; simpl; split.
  - intros Hk. exists a. split; [reflexivity | exact Hk].
  - intros (a' & Ha & Hk). injection Ha as ->. exact Hk.
  - discriminate.
  - intros (a' & Ha & _). discriminate.
Qed.

Lemma bind_Raise {A B : Type} (c : result A) (k : A -> result B) (e : exn) :
  bind c k = Raise e <-> c = Raise e \/ exists a, c = Ok a /\ k a = Raise e.
Proof.
  destruct c as [a|e']; simpl; split.
  - intros Hk. right. exists a. split; [reflexivity | exact Hk].
  - intros [Hc | (a' & Ha & Hk)]; [discriminate |]. injection Ha as ->. exact Hk.
  - intros Hk. left. injection Hk as ->. reflexivity.
  - intros [Hc | (a' & Ha & _)]; [| discriminate]. injection Hc as ->. reflexivity.
Qed.

(** Splits every successful [bind] among the hypotheses. *)
Ltac bind_inv :=
  repeat match goal with
  | Hb : bind _ _ = Ok _ |- _ =>
      let a := fresh "a" in
      let Ha := fresh "Ha" in
      apply bind_Ok in Hb; destruct Hb as (a & Ha & Hb)
  | Hb : Ok _ = Ok _ |- _ => injection Hb as Hb
  end.

Section MapM.

Context {A B : Type} (f : A -> result B).

Lemma mapM_Ok (l : list A) (k : list B) :
  mapM f l = Ok k <-> Forall2 (fun x y => f x = Ok y) l k.
Proof.
  revert k. induction l as [|x l IH]; intros k; simpl.
  - split.
    + intros Hk. injection Hk as <-. constructor.
    + intros Hk. inversion Hk. reflexivity.
  - split.
    + intros Hk. bind_inv. subst k. constructor; [assumption |].
      apply IH. assumption.
    + intros Hk. inversion Hk as [|x' y l' k' Hx Hl]; subst.
      rewrite Hx. simpl. apply IH in Hl. rewrite Hl. reflexivity.
Qed.

Lemma mapM_length (l : list A) (k : list B) :
  mapM f l = Ok k -> List.length k = List.length l.
Proof. intros Hk. apply mapM_Ok, Forall2_length in Hk. symmetry. exact Hk. Qed.

Lemma mapM_lookup (l : list A) (k : list B) (i : nat) (x : A) :
  mapM f l = Ok k -> l !! i = Some x -> exists y, k !! i = Some y /\ f x = Ok y.
Proof.
  intros Hk Hx. apply mapM_Ok in Hk.
  destruct (Forall2_lookup_l _ _ _ _ _ Hk Hx) as (y & Hy & Hf). eauto.
Qed.

Lemma mapM_total (l : list A) :
  Forall (fun x => exists y, f x = Ok y) l -> exists k, mapM f l = Ok k.
Proof.
  induction 1 as [|x l (y & Hy) _ (k & Hk)]; simpl.
  - eauto.
  - rewrite Hy, Hk. simpl. eauto.
Qed.

(** The loop raises [e] exactly when some element does after all the
    elements before it went through. *)
Lemma mapM_Raise (l : list A) (e : exn) :
  mapM f l = Raise e <->
  exists pre x suf, l = pre ++ x :: suf /\
    Forall (fun y => exists v, f y = Ok v) pre /\ f x = Raise e.
Proof.
  induction l as [|x l IH]; simpl.
  - split; [discriminate |]. intros (pre & y & suf & Hl & _).
    destruct pre; discriminate.
  - split.
    + intros Hr. apply bind_Raise in Hr as [Hx | (y & Hy & Hr)].
      * exists [], x, l. split; [reflexivity |]. split; [constructor | exact Hx].
      * apply bind_Raise in Hr as [Hr | (ys & _ & Hr)]; [| discriminate].
        apply IH in Hr as (pre & z & suf & -> & Hpre & Hz).
        exists (x :: pre), z, suf. split; [reflexivity |].
        split; [constructor; eauto | exact Hz].
    + intros (pre & z & suf & Hl & Hpre & Hz).
      destruct pre as [|p pre]; simpl in Hl; injection Hl as -> ->.
      * rewrite Hz. reflexivity.
      * inversion Hpre as [|? ? (v & Hv) Hpre']; subst. rewrite Hv. simpl.
        assert (Hr : mapM f (pre ++ z :: suf) = Raise e).
        { apply IH. exists pre, z, suf. auto. }
        rewrite Hr. reflexivity.
Qed.

End MapM.


(** *** Newlines, [join] and [split] *)

Lemma has_newline_app (a b : string) :
  has_newline (a +:+ b) = has_newline a || has_newline b.
Proof.
  induction a as [|c a IH]; simpl; [reflexivity |].
  rewrite IH. apply orb_assoc.
Qed.

Lemma has_newline_uint (d : Decimal.uint) :
  has_newline (NilEmpty.string_of_uint d) = false.
Proof. induction d; simpl; auto. Qed.

Lemma has_newline_str_of_nat (n : nat) : has_newline (str_of_nat n) = false.
Proof.
  unfold str_of_nat, NilZero.string_of_uint.
  destruct (Nat.to_uint n) eqn:E; try reflexivity; rewrite <- E; apply has_newline_uint.
Qed.

Lemma split_lines_not_nil (s : string) : split_lines s <> [].
Proof.
  induction s as [|c s IH]; simpl; [discriminate |].
  destruct (Ascii.eqb c newline); [discriminate |].
  destruct (split_lines s); discriminate.
Qed.

Lemma split_lines_no_newline (s : string) :
  has_newline s = false -> split_lines s = [s].
Proof.
  induction s as [|c s IH]; simpl; [reflexivity |].
  intros Hs. apply orb_false_iff in Hs as [Hc Hs].
  rewrite Hc, (IH Hs). reflexivity.
Qed.

(** A piece without newline, a newline, then the rest: the piece is the
    first line. *)
Lemma split_lines_cons (a rest : string) :
  has_newline a = false ->
  split_lines (a +:+ NL +:+ rest) = a :: split_lines rest.
Proof.
  induction a as [|c a IH]; simpl; intros Ha.
  - reflexivity.
  - apply orb_false_iff in Ha as [Hc Ha]. rewrite Hc, (IH Ha). reflexivity.
Qed.

Lemma split_lines_join (entries : list string) :
  entries <> [] ->
  Forall (fun e => has_newline e = false) entries ->
  split_lines (join NL entries) = entries.
Proof.
  intros Hne Hall. induction Hall as [|e l He Hl IH]; [congruence |].
  destruct l as [|e' l].
  - simpl. apply split_lines_no_newline, He.
  - change (join NL (e :: e' :: l)) with (e +:+ NL +:+ join NL (e' :: l)).
    rewrite split_lines_cons by exact He.
    rewrite IH by discriminate. reflexivity.
Qed.

Lemma enumerate_from_length {A : Type} (start : nat) (l : list A) :
  List.length (enumerate_from start l) = List.length l.
Proof. revert start. induction l; intros; simpl; auto. Qed.

Lemma enumerate_from_lookup {A : Type} (start : nat) (l : list A) (i : nat) :
  enumerate_from start l !! i = (fun x => (start + i, x)) <$> l !! i.
Proof.
  revert start i. induction l as [|x l IH]; intros start i; simpl.
  - reflexivity.
  - destruct i as [|i]; simpl.
    + rewrite Nat.add_0_r. reflexivity.
    + rewrite IH. destruct (l !! i); simpl; [| reflexivity].
      do 2 f_equal. lia.
Qed.

(** *** Decimal strings *)


Lemma str_of_nat_roundtrip (n : nat) :
  option_map Nat.of_uint (NilZero.uint_of_string (str_of_nat n)) = Some n.
Proof.
  unfold str_of_nat. pose proof (DecimalNat.Unsigned.of_to n) as Hn.
  destruct (Nat.to_uint n) eqn:E;
    try (rewrite NilZero.usu by discriminate; simpl; f_equal; exact Hn).
  simpl in Hn. subst n. reflexivity.
Qed.

Lemma str_of_nat_inj (a b : nat) : str_of_nat a = str_of_nat b -> a = b.
Proof.
  intros E. pose proof (str_of_nat_roundtrip a) as Ha.
  rewrite E, str_of_nat_roundtrip in Ha. injection Ha as ->. reflexivity.
Qed.

End PyFacts.
Import PyFacts.

(** ** Prompt Builder *)

Module PromptFacts.
Import Prompt.

Lemma has_newline_choice_entry (i : nat) (c : string) :
  has_newline c = false -> has_newline (choice_entry (i, c)) = false.
Proof.
  intros Hc. unfold choice_entry. simpl fst. simpl snd.
  rewrite !has_newline_app, has_newline_str_of_nat, Hc. reflexivity.
Qed.

Lemma entries_length (cs : list string) :
  List.length (map choice_entry (enumerate cs)) = List.length cs.
Proof. rewrite length_map. apply enumerate_from_length. Qed.

Lemma entries_lookup (cs : list string) (i : nat) (c : string) :
  cs !! i = Some c ->
  map choice_entry (enumerate cs) !! i = Some (str_of_nat (i + 1) +:+ " - " +:+ c).
Proof.
  intros Hc. rewrite list_lookup_fmap. unfold enumerate.
  rewrite enumerate_from_lookup, Hc. reflexivity.
Qed.

Lemma entries_no_newline (cs : list string) :
  Forall (fun c => has_newline c = false) cs ->
  Forall (fun e => has_newline e = false) (map choice_entry (enumerate cs)).
Proof.
  unfold enumerate. generalize 0.
  induction cs as [|c cs IH]; intros start Hcs; simpl; [constructor |].
  inversion Hcs; subst. constructor.
  - apply has_newline_choice_entry. assumption.
  - apply IH. assumption.
Qed.

Lemma entries_not_nil (cs : list string) :
  cs <> [] -> map choice_entry (enumerate cs) <> [].
Proof. destruct cs; [congruence | discriminate]. Qed.

Lemma split_choices_string (cs : list string) :
  cs <> [] -> Forall (fun c => has_newline c = false) cs ->
  split_lines (choices_string cs) = map choice_entry (enumerate cs).
Proof.
  intros Hne Hcs.
  apply split_lines_join; [apply entries_not_nil | apply entries_no_newline]; assumption.
Qed.

(** C2, as amended.  The choices block is the newline-join of one entry per
    choice, in the order of the input, entry [i] being [str(i+1)], [" - "]
    and the text of choice [i]; when the list is not empty and no choice
    text contains a newline, the lines of the block are exactly these
    entries, so the block has [len(choices)] lines.  The four choices
    A, B, C, D render as the four lines of the example. *)
Theorem choices_block_lines (cs : list string) :
  let entries := map choice_entry (enumerate cs) in
  choices_string cs = join NL entries /\
  List.length entries = List.length cs /\
  (forall i c, cs !! i = Some c ->
     entries !! i = Some (str_of_nat (i + 1) +:+ " - " +:+ c)) /\
  (cs <> [] -> Forall (fun c => has_newline c = false) cs ->
     split_lines (choices_string cs) = entries /\
     List.length (split_lines (choices_string cs)) = List.length cs) /\
  choices_string ["A"; "B"; "C"; "D"]
    = "1 - A" +:+ NL +:+ "2 - B" +:+ NL +:+ "3 - C" +:+ NL +:+ "4 - D".
Proof.
  intros entries. split; [reflexivity |].
  split; [apply entries_length |].
  split; [apply entries_lookup |].
  split; [| reflexivity].
  intros Hne Hcs.
  assert (Hs : split_lines (choices_string cs) = entries).
  { apply split_choices_string; assumption. }
  split; [exact Hs |]. rewrite Hs. apply entries_length.
Qed.

(** The block of A, B, C, D splits back into its four entries. *)
Lemma choices_block_lines_witness :
  split_lines (choices_string ["A"; "B"; "C"; "D"]) = ["1 - A"; "2 - B"; "3 - C"; "4 - D"] /\
  List.length (split_lines (choices_string ["A"; "B"; "C"; "D"])) = 4.
Proof.
  apply (choices_block_lines ["A"; "B"; "C"; "D"]).
  - discriminate.
  - repeat constructor.
Defined.

(** C2, as stated, fails on a choice that contains a newline: two choices
    give a block of three lines, and its second line (index 1) is the tail
    of the first choice, not the entry of the second one. *)
Lemma choices_block_newline_choice :
  List.length choices_with_newline = 2 /\
  List.length (split_lines (choices_string choices_with_newline)) = 3 /\
  split_lines (choices_string choices_with_newline) = ["1 - a"; "b"; "2 - c"] /\
  choices_with_newline !! 1 = Some "c".
Proof. repeat split. Qed.

Section Builder.

Variable format : string -> list (string * string) -> result string.
Variables q_plus no_q_plus : string.


Lemma inference_item_fields (row : ExamRecord) (it : InferenceItem) :
  inference_item format q_plus no_q_plus row = Ok it ->
  exists msg, user_message format q_plus no_q_plus row = Ok msg /\
    it = mkInferenceItem (id row)
           [mkMessage system system_prompt; mkMessage user msg]
           (answer row) (List.length (choices row)).
Proof.
  unfold inference_item. intros Hit. bind_inv. subst it. eauto.
Qed.

End Builder.







End PromptFacts.

(** ** Record Normalizer *)

Module NormalizerFacts.
Import Normalizer.

Section Decoder.

Variable literal_eval : string -> option pyval.

(** [record_of_row] by cases on what the decoder returns. *)
Lemma record_of_row_cases (row : RawRow) :
  record_of_row literal_eval row =
  match literal_eval (row_problems row) with
  | None => Raise ParseError
  | Some (PyDict items) =>
      match dict_lookup "question" items with
      | None => Raise (KeyError "question")
      | Some q =>
          match dict_lookup "choices" items with
          | None => Raise (KeyError "choices")
          | Some c =>
              Ok (mkFlatRecord (row_id row) (row_paragraph row) q c
                    (default PyNone (dict_lookup "answer" items))
                    (default PyNone (dict_lookup "question_plus" items)))
          end
      end
  | Some _ => Raise TypeError
  end.
Proof.
  unfold record_of_row, decode.
  destruct (literal_eval (row_problems row)) as [[| | | |items]|]; try reflexivity.
  simpl.
  destruct (dict_lookup "question" items) as [q|]; [| reflexivity]. simpl.
  destruct (dict_lookup "choices" items) as [c|]; [| reflexivity]. simpl.
  destruct (dict_lookup "answer" items) as [a|]; simpl;
    destruct (dict_lookup "question_plus" items) as [p|]; reflexivity.
Qed.

Lemma record_of_row_keeps (row : RawRow) (r : FlatRecord) :
  record_of_row literal_eval row = Ok r ->
  rec_id r = row_id row /\ rec_paragraph r = row_paragraph row.
Proof.
  rewrite record_of_row_cases.
  destruct (literal_eval (row_problems row)) as [[| | | |items]|]; try discriminate.
  destruct (dict_lookup "question" items); [| discriminate].
  destruct (dict_lookup "choices" items); [| discriminate].
  intros Hr. injection Hr as <-. split; reflexivity.
Qed.

Lemma record_of_row_ParseError (row : RawRow) :
  record_of_row literal_eval row = Raise ParseError <->
  literal_eval (row_problems row) = None.
Proof.
  rewrite record_of_row_cases.
  destruct (literal_eval (row_problems row)) as [[| | | |items]|];
    try (split; discriminate); [| split; reflexivity].
  destruct (dict_lookup "question" items); [| split; discriminate].
  destruct (dict_lookup "choices" items); split; discriminate.
Qed.

End Decoder.

(** C7.  Each record keeps the id and the paragraph of its row, row by row
    over the whole table.  When the decoded dict has no ['question_plus']
    key the record (produced as soon as ['question'] and ['choices'] are
    there) has [question_plus = None], and no run ever raises a missing-key
    error for ['question_plus'].  A row fails with the decoder's error
    exactly when its [problems] string cannot be decoded, and the table
    does exactly when that happens at the first row that fails. *)
Theorem record_normalizer_contract (literal_eval : string -> option pyval) :
  (forall row r, record_of_row literal_eval row = Ok r ->
     rec_id r = row_id row /\ rec_paragraph r = row_paragraph row) /\
  (forall ds recs, record_to_df literal_eval ds = Ok recs ->
     Forall2 (fun row r => rec_id r = row_id row /\ rec_paragraph r = row_paragraph row)
             ds recs) /\
  (forall row items,
     literal_eval (row_problems row) = Some (PyDict items) ->
     dict_lookup "question_plus" items = None ->
     (forall r, record_of_row literal_eval row = Ok r -> rec_question_plus r = PyNone) /\
     (forall q c, dict_lookup "question" items = Some q ->
                  dict_lookup "choices" items = Some c ->
        exists r, record_of_row literal_eval row = Ok r /\ rec_question_plus r = PyNone)) /\
  (forall row, record_of_row literal_eval row <> Raise (KeyError "question_plus")) /\
  (forall row, record_of_row literal_eval row = Raise ParseError <->
               literal_eval (row_problems row) = None) /\
  (forall ds, record_to_df literal_eval ds = Raise ParseError <->
     exists pre row suf, ds = pre ++ row :: suf /\
       Forall (fun y => exists r, record_of_row literal_eval y = Ok r) pre /\
       literal_eval (row_problems row) = None).
Proof.
  repeat apply conj.
  - apply record_of_row_keeps.
  - intros ds recs Hrecs. apply mapM_Ok in Hrecs.
    eapply Forall2_impl; [exact Hrecs |]. apply record_of_row_keeps.
  - intros row items Hdec Hplus. split.
    + intros r. rewrite record_of_row_cases, Hdec, Hplus.
      destruct (dict_lookup "question" items); [| discriminate].
      destruct (dict_lookup "choices" items); [| discriminate].
      intros Hr. injection Hr as <-. reflexivity.
    + intros q c Hq Hc. rewrite record_of_row_cases, Hdec, Hq, Hc, Hplus.
      eexists. split; reflexivity.
  - intros row. rewrite record_of_row_cases.
    destruct (literal_eval (row_problems row)) as [[| | | |items]|]; try discriminate.
    destruct (dict_lookup "question" items); [| discriminate].
    destruct (dict_lookup "choices" items); discriminate.
  - apply record_of_row_ParseError.
  - intros ds. unfold record_to_df. rewrite mapM_Raise.
    split; intros (pre & row & suf & Hds & Hpre & Hrow); exists pre, row, suf;
      (split; [exact Hds |]); (split; [exact Hpre |]);
      apply record_of_row_ParseError; exact Hrow.
Qed.

(** A row without ['question_plus'] gets [None]; a row whose structure
    decodes but has no ['question'] fails with a missing-key error, which
    is not the decoder's error; an undecodable row fails with the latter. *)
Example record_of_row_samples :
  record_of_row sample_literal_eval (mkRawRow "id-7" "a passage" sample_problems_plain)
    = Ok (mkFlatRecord "id-7" "a passage" (PyStr "Q") (PyList [PyStr "A"; PyStr "B"])
            (PyInt 2) PyNone) /\
  record_of_row sample_literal_eval (mkRawRow "id-8" "a passage" sample_problems_no_question)
    = Raise (KeyError "question") /\
  record_of_row sample_literal_eval (mkRawRow "id-9" "a passage" "{'question': ")
    = Raise ParseError.
Proof. repeat split. Qed.

End NormalizerFacts.

(** ** Length filter *)

Module PipelineFacts.
Import Pipeline.

(** C3.  The filter keeps an example exactly when its [input_ids] has at
    most [L] elements: what is kept is what was there and is short enough,
    everything dropped is longer than [L], kept and dropped together are
    the dataset, and the kept examples stand in the order they had. *)
Theorem filter_max_len_exact (L : nat) (ds : list TokenizedExample) :
  (forall x, x ∈ filter_max_len L ds <-> x ∈ ds /\ List.length (input_ids x) <= L) /\
  Forall (fun x => List.length (input_ids x) <= L) (filter_max_len L ds) /\
  Forall (fun x => L < List.length (input_ids x)) (dropped L ds) /\
  filter_max_len L ds ++ dropped L ds ≡ₚ ds /\
  sublist (filter_max_len L ds) ds.
Proof.
  unfold filter_max_len, dropped. repeat apply conj.
  - intros x. rewrite list_elem_of_filter. tauto.
  - apply Forall_forall. intros x Hx. apply list_elem_of_filter in Hx. tauto.
  - apply Forall_forall. intros x Hx. apply list_elem_of_filter in Hx. lia.
  - apply filter_app_complement.
  - apply sublist_filter.
Qed.

(** Three examples of lengths 2, 4, 1 filtered at length 2: the first and
    the third stay, in that order. *)
Example filter_max_len_sample :
  filter_max_len 2 [mkTokenized [5; 6] [1; 1]; mkTokenized [5; 6; 7; 8] [1; 1; 1; 1];
                    mkTokenized [9] [1]]
  = [mkTokenized [5; 6] [1; 1]; mkTokenized [9] [1]].
Proof. reflexivity. Qed.

End PipelineFacts.

(** ** Choice Scorer *)

Module ScorerFacts.
Import Scorer.

Lemma pred_choice_Ok (k : nat) (d : string) :
  pred_choice k = Ok d <-> k < 5 /\ d = digit_of_prediction k.
Proof.
  unfold pred_choice.
  do 5 (destruct k as [|k];
        [vm_compute; split; [intros E; injection E as <-; split; [lia | reflexivity]
                            | intros [_ ->]; reflexivity] |]).
  assert (Hnone : pred_choices_map !! S (S (S (S (S k)))) = None).
  { unfold pred_choices_map. rewrite !lookup_insert_ne by lia.
    apply lookup_singleton_ne. lia. }
  rewrite Hnone. split; [discriminate | lia].
Qed.

Lemma valid_digits_elem (n k : nat) : k < n -> digit_of_prediction k ∈ valid_digits n.
Proof.
  intros Hk. unfold valid_digits, digit_of_prediction.
  apply list_elem_of_fmap. exists k. split; [reflexivity |].
  apply list_elem_of_In, in_seq. lia.
Qed.

Section Scalars.

Context {T : Type} `{Scalar T}.

Lemma softmax_length (x : list T) : List.length (softmax x) = List.length x.
Proof. unfold softmax. rewrite !length_map. reflexivity. Qed.

Lemma argmax_from_bound (l : list T) (best_i : nat) (best : T) (i : nat) :
  best_i < i -> argmax_from best_i best i l < i + List.length l.
Proof.
  revert best_i best i. induction l as [|v l IH]; intros best_i best i Hi; simpl.
  - lia.
  - destruct (s_gtb v best).
    + specialize (IH i v (S i)). lia.
    + specialize (IH best_i best (S i)). lia.
Qed.

Lemma argmax_Ok (l : list T) (k : nat) : argmax l = Ok k -> k < List.length l.
Proof.
  destruct l as [|v l]; simpl; [discriminate |].
  intros Hk. injection Hk as <-.
  pose proof (argmax_from_bound l 0 v 1). lia.
Qed.


Lemma vocab_get_Ok (vocab : gmap string nat) (tok : string) (k : nat) :
  vocab_get vocab tok = Ok k <-> vocab !! tok = Some k.
Proof.
  unfold vocab_get. destruct (vocab !! tok); split; intros E;
    try discriminate; injection E as ->; reflexivity.
Qed.

Lemma list_getitem_Ok {A : Type} (l : list A) (i : nat) (a : A) :
  list_getitem l i = Ok a <-> l !! i = Some a.
Proof.
  unfold list_getitem. destruct (l !! i); split; intros E;
    try discriminate; injection E as ->; reflexivity.
Qed.

Lemma list_getitem_neg_Ok {A : Type} (l : list A) (k : nat) (a : A) :
  list_getitem_neg l k = Ok a <-> k <= List.length l /\ l !! (List.length l - k) = Some a.
Proof.
  unfold list_getitem_neg. destruct (Nat.ltb_spec (List.length l) k).
  - split; [discriminate | lia].
  - rewrite list_getitem_Ok. split; [auto | tauto].
Qed.

(** The list handed to softmax holds, at position [i], the logit at the
    id of digit [i+1], for [i] below [len_choices], and nothing else. *)
Lemma target_logit_list_Ok (vocab : gmap string nat) (logits target : list T) (n : nat) :
  target_logit_list vocab logits n = Ok target ->
  List.length target = n /\
  forall i, i < n -> exists k v,
    vocab !! str_of_nat (i + 1) = Some k /\ logits !! k = Some v /\ target !! i = Some v.
Proof.
  unfold target_logit_list. intros Ht. split.
  - apply mapM_length in Ht. rewrite Ht. apply length_seq.
  - intros i Hi.
    destruct (mapM_lookup _ _ _ i i Ht) as (v & Hv & Hf).
    { apply lookup_seq. lia. }
    bind_inv. apply vocab_get_Ok in Ha. apply list_getitem_Ok in Hf. eauto.
Qed.



Lemma predict_value_Ok (vocab : gmap string nat) (logits : list T) (n : nat) (d : string) :
  predict_value vocab logits n = Ok d -> d ∈ valid_digits n.
Proof.
  unfold predict_value. intros Hd. bind_inv.
  apply target_logit_list_Ok in Ha as [Hlen _].
  apply argmax_Ok in Ha0. rewrite softmax_length, Hlen in Ha0.
  apply pred_choice_Ok in Hd as [_ ->]. apply valid_digits_elem. exact Ha0.
Qed.


End Scalars.

#[local] Arguments mapM : simpl never.

(** What [preprocess_logits_for_metrics] keeps, for a tensor. *)
Lemma preprocess_Ok {T L : Type} (vocab : gmap string nat) (t : list (list (list T)))
  (labels : L) (kept : list (list T)) :
  preprocess_logits_for_metrics vocab (Tensor t) labels = Ok kept ->
  exists logit_idx,
    mapM (vocab_get vocab) digit_tokens = Ok logit_idx /\
    List.length logit_idx = 5 /\
    Forall2 (fun example out =>
      2 <= List.length example /\
      exists row, example !! (List.length example - 2) = Some row /\
        Forall2 (fun k v => row !! k = Some v) logit_idx out)
      t kept.
Proof.
  unfold preprocess_logits_for_metrics. simpl. intros Hk.
  apply bind_Ok in Hk as (idx & Hidx & Hk).
  exists idx. split; [exact Hidx |]. split; [apply (mapM_length _ _ _ Hidx) |].
  apply mapM_Ok in Hk. eapply Forall2_impl; [exact Hk |].
  intros example out Hout. apply bind_Ok in Hout as (row & Hget & Hout).
  apply list_getitem_neg_Ok in Hget as [Hlen Hrow]. split; [exact Hlen |].
  exists row. split; [exact Hrow |].
  apply mapM_Ok in Hout. eapply Forall2_impl; [exact Hout |].
  intros k v Hv. apply list_getitem_Ok. exact Hv.
Qed.

Lemma preprocess_total {T L : Type} (vocab : gmap string nat) (t : list (list (list T)))
  (labels : L) (logit_idx : list nat) :
  mapM (vocab_get vocab) digit_tokens = Ok logit_idx ->
  Forall (fun example =>
    exists row, 2 <= List.length example /\
      example !! (List.length example - 2) = Some row /\
      Forall (fun k => k < List.length row) logit_idx) t ->
  exists kept, preprocess_logits_for_metrics vocab (Tensor t) labels = Ok kept.
Proof.
  intros Hidx Ht. unfold preprocess_logits_for_metrics. simpl. rewrite Hidx. simpl.
  apply mapM_total. eapply Forall_impl; [exact Ht |].
  intros example (row & Hlen & Hrow & Hwidth).
  assert (Hget : list_getitem_neg example 2 = Ok row).
  { apply list_getitem_neg_Ok. auto. }
  rewrite Hget. simpl. apply mapM_total.
  eapply Forall_impl; [exact Hwidth |].
  intros k Hk. destruct (lookup_lt_is_Some_2 row k Hk) as (v & Hv).
  exists v. apply list_getitem_Ok. exact Hv.
Qed.

(** C5.  [preprocess_logits_for_metrics] never looks at the labels, takes
    the head of a tuple as the tensor, and for every example of the batch
    keeps the logits of one position only: position [length - 2] of that
    example, whatever the example holds (an example with fewer than two
    positions makes the call fail).  It returns whenever the five digits
    are in the vocabulary and index into the rows at that position. *)
Theorem eval_position_second_to_last {T : Type} (vocab : gmap string nat) :
  (forall (L L' : Type) (labels : L) (labels' : L') (logits : @LogitsArg T),
     preprocess_logits_for_metrics vocab logits labels
     = preprocess_logits_for_metrics vocab logits labels') /\
  (forall (L : Type) (labels : L) (t : list (list (list T))) ts,
     preprocess_logits_for_metrics vocab (Tuple (t :: ts)) labels
     = preprocess_logits_for_metrics vocab (Tensor t) labels) /\
  (forall (L : Type) (labels : L) (t : list (list (list T))) kept,
     preprocess_logits_for_metrics vocab (Tensor t) labels = Ok kept ->
     exists logit_idx,
       mapM (vocab_get vocab) digit_tokens = Ok logit_idx /\
       List.length logit_idx = 5 /\
       Forall2 (fun example out =>
         2 <= List.length example /\
         exists row, example !! (List.length example - 2) = Some row /\
           Forall2 (fun k v => row !! k = Some v) logit_idx out)
         t kept) /\
  (forall (L : Type) (labels : L) (t : list (list (list T))) logit_idx,
     mapM (vocab_get vocab) digit_tokens = Ok logit_idx ->
     Forall (fun example =>
       exists row, 2 <= List.length example /\
         example !! (List.length example - 2) = Some row /\
         Forall (fun k => k < List.length row) logit_idx) t ->
     exists kept, preprocess_logits_for_metrics vocab (Tensor t) labels = Ok kept).
Proof.
  repeat apply conj.
  - reflexivity.
  - reflexivity.
  - intros L labels t kept. apply preprocess_Ok.
  - intros L labels t logit_idx. apply preprocess_total.
Qed.

(** One example of three positions: the kept row is read at position 1. *)
Example eval_position_sample :
  preprocess_logits_for_metrics sample_vocab
    (Tensor [[[0; 0; 10; 11; 12; 13; 14]; [0; 0; 20; 21; 22; 23; 24]; [0; 0; 30; 31; 32; 33; 34]]])
    tt
  = Ok [[20; 21; 22; 23; 24]].
Proof. vm_compute. reflexivity. Qed.




End ScorerFacts.

(** ** Entry point *)

Module CliFacts.
Import Cli.

Lemma list_index_absent (x : string) (l : list string) :
  x ∉ l -> list_index x l = Raise ValueError.
Proof.
  induction l as [|y l IH]; simpl; intros Hx; [reflexivity |].
  apply not_elem_of_cons in Hx as [Hne Hx].
  destruct (String.eqb_spec y x) as [->|_]; [congruence |].
  rewrite (IH Hx). reflexivity.
Qed.

Lemma list_index_last (x : string) (l : list string) :
  x ∉ l -> list_index x (l ++ [x]) = Ok (List.length l).
Proof.
  induction l as [|y l IH]; simpl; intros Hx.
  - rewrite String.eqb_refl. reflexivity.
  - apply not_elem_of_cons in Hx as [Hne Hx].
    destruct (String.eqb_spec y x) as [->|_]; [congruence |].
    rewrite (IH Hx). reflexivity.
Qed.

(** Without the flag among the arguments the entry point asks for the
    name and calls [main] with what it reads. *)
Lemma entry_without_flag (argv stdin : list string) :
  "--run_name" ∉ argv ->
  entry argv stdin =
  (fst (ask_run_name stdin), name <- snd (ask_run_name stdin) ;; Ok (name, true)).
Proof.
  intros Hflag. unfold entry, argv_run_name.
  rewrite (list_index_absent _ _ Hflag). simpl.
  destruct (ask_run_name stdin). reflexivity.
Qed.

(** The loop prompts once per empty line and once more for the line it
    accepts, which is the first non-empty one. *)
Lemma ask_run_name_first_nonempty (n : nat) (name : string) (rest : list string) :
  name <> "" ->
  ask_run_name (replicate n "" ++ name :: rest)
  = (replicate (S n) (Prompted missing_prompt), Ok name).
Proof.
  intros Hname. induction n as [|n IH]; simpl.
  - destruct (String.eqb_spec name ""); [congruence | reflexivity].
  - simpl in IH. rewrite IH. reflexivity.
Qed.

(** With the flag as the last argument the lookup of the name fails with
    [IndexError], which the entry point does not handle. *)
Lemma entry_flag_last (pre stdin : list string) :
  "--run_name" ∉ pre ->
  entry (pre ++ ["--run_name"]) stdin = ([], Raise IndexError).
Proof.
  intros Hflag. unfold entry, argv_run_name.
  rewrite (list_index_last _ _ Hflag). simpl. unfold list_getitem.
  rewrite lookup_ge_None_2; [reflexivity |]. rewrite length_app. simpl. lia.
Qed.

(** An error in the guarded block is logged, the cache is emptied, and the
    error leaves [main]; without error only the cache is emptied. *)
Lemma guarded_spec (shown : list event) (r : result unit) :
  guarded (shown, r) =
  match r with
  | Ok _ => (shown ++ [EmptiedCache], Ok tt)
  | Raise e => (shown ++ [LoggedError e; EmptiedCache], Raise e)
  end.
Proof. destruct r; reflexivity. Qed.

(** C8, at the failing input.  Launched as [main.py --run_name], with the
    flag and no name after it, the program shows no prompt and ends with
    an uncaught [IndexError], whatever the terminal would supply. *)
Theorem run_name_flag_without_value (stdin : list string) :
  entry ["main.py"; "--run_name"] stdin = ([], Raise IndexError).
Proof. reflexivity. Qed.

(** Launched without the flag, the same program prompts until it reads a
    name; given an empty name after the flag, it does not prompt at all. *)
Example entry_samples :
  entry ["main.py"] [""; ""; "exp-1"]
    = ([Prompted missing_prompt; Prompted missing_prompt; Prompted missing_prompt],
       Ok ("exp-1", true)) /\
  entry ["main.py"; "--run_name"; ""] ["exp-1"] = ([], Ok ("", true)) /\
  entry ["main.py"; "--run_name"; "exp-1"] [] = ([], Ok ("exp-1", true)).
Proof. repeat split. Qed.

(** Every call of [main] made by the entry point passes [debug=True]. *)
Lemma entry_debug (argv stdin : list string) (call : string * bool) :
  snd (entry argv stdin) = Ok call -> snd call = true.
Proof.
  unfold entry. destruct (argv_run_name argv) as [name|e].
  - simpl. intros E. injection E as <-. reflexivity.
  - destruct e; try discriminate.
    destruct (ask_run_name stdin) as [shown [name|e]]; simpl; [| discriminate].
    intros E. injection E as <-. reflexivity.
Qed.

Lemma rotate_Permutation {A : Type} (n : nat) (l : list A) : rotate n l ≡ₚ l.
Proof.
  unfold rotate. rewrite Permutation_app_comm. rewrite take_drop. reflexivity.
Qed.

(** [sample_rows] returns as many rows as asked, drawn from the table
    without repetition. *)
Lemma sample_rows_contract {Row : Type} (n seed : nat) (rows out : list Row) :
  sample_rows n seed rows = Ok out -> List.length out = n /\ out ⊆+ rows.
Proof.
  unfold sample_rows.
  destruct (Nat.ltb_spec (List.length rows) n) as [|Hn]; [discriminate |].
  intros E. injection E as <-. split.
  - rewrite length_take, length_rotate. lia.
  - rewrite submseteq_take. rewrite rotate_Permutation. reflexivity.
Qed.

(** C9, as amended.  Every call of [main] from the entry point has
    [debug=True], so what reaches [record_to_df] is never the table as
    read but the result of sampling 500 rows from it with the fixed seed.
    For a sampler that returns as many rows as asked, drawn from the
    table without repetition: when the sampling returns, the table
    processed has 500 rows of the dataset, so a dataset of more than 500
    rows is never processed in full; a dataset of exactly 500 rows is
    processed whole, in the sampled order; and from a dataset of fewer
    than 500 rows no table is obtained. *)
Theorem cli_always_samples {Row : Type} (sample : nat -> nat -> list Row -> result (list Row))
  (argv stdin : list string) :
  (forall n seed rows out,
     sample n seed rows = Ok out -> List.length out = n /\ out ⊆+ rows) ->
  (forall call, snd (entry argv stdin) = Ok call -> snd call = true) /\
  (forall call dataset, snd (entry argv stdin) = Ok call ->
     cli_dataset sample argv stdin dataset = load_dataset sample true dataset /\
     cli_dataset sample argv stdin dataset = sample 500 SEED dataset) /\
  (forall dataset processed,
     cli_dataset sample argv stdin dataset = Ok processed ->
     sample 500 SEED dataset = Ok processed /\
     List.length processed = 500 /\
     processed ⊆+ dataset /\
     500 <= List.length dataset /\
     (500 < List.length dataset -> ~ processed ≡ₚ dataset) /\
     (List.length dataset = 500 -> processed ≡ₚ dataset)) /\
  (forall dataset, List.length dataset < 500 ->
     forall processed, cli_dataset sample argv stdin dataset <> Ok processed).
Proof.
  intros Hcontract.
  assert (Hsampled : forall dataset processed,
            cli_dataset sample argv stdin dataset = Ok processed ->
            sample 500 SEED dataset = Ok processed).
  { intros dataset processed Hp. unfold cli_dataset in Hp.
    apply bind_Ok in Hp as (call & Hcall & Hp).
    rewrite (entry_debug _ _ _ Hcall) in Hp. exact Hp. }
  split; [apply entry_debug |]. split; [| split].
  - intros call dataset Hcall. unfold cli_dataset. rewrite Hcall. simpl.
    rewrite (entry_debug _ _ _ Hcall). split; reflexivity.
  - intros dataset processed Hp. apply Hsampled in Hp.
    destruct (Hcontract _ _ _ _ Hp) as [Hlen Hsub].
    pose proof (submseteq_length _ _ Hsub) as Hle.
    split; [exact Hp |]. split; [exact Hlen |]. split; [exact Hsub |].
    split; [lia |]. split.
    + intros Hmore Hperm. apply Permutation_length in Hperm. lia.
    + intros Hsame. apply submseteq_length_Permutation; [exact Hsub | lia].
  - intros dataset Hshort processed Hp. apply Hsampled in Hp.
    destruct (Hcontract _ _ _ _ Hp) as [Hlen Hsub].
    apply submseteq_length in Hsub. lia.
Qed.

(** A table of 600 rows, sampled through the entry point: 500 of its rows. *)
Lemma cli_always_samples_witness :
  sample_rows 500 SEED (seq 0 600)
    = Ok (take 500 (rotate (SEED `mod` 601) (seq 0 600))) /\
  List.length (take 500 (rotate (SEED `mod` 601) (seq 0 600))) = 500 /\
  take 500 (rotate (SEED `mod` 601) (seq 0 600)) ⊆+ seq 0 600 /\
  500 <= List.length (seq 0 600) /\
  (500 < List.length (seq 0 600) ->
   ~ take 500 (rotate (SEED `mod` 601) (seq 0 600)) ≡ₚ seq 0 600) /\
  (List.length (seq 0 600) = 500 ->
   take 500 (rotate (SEED `mod` 601) (seq 0 600)) ≡ₚ seq 0 600).
Proof.
  refine (proj1 (proj2 (proj2 (cli_always_samples sample_rows
                                 ["main.py"; "--run_name"; "exp-1"] [] _)))
            (seq 0 600) (take 500 (rotate (SEED `mod` 601) (seq 0 600))) _).
  - intros n seed rows out. apply sample_rows_contract.
  - vm_compute. reflexivity.
Defined.

(** C9, as stated, fails on a table of exactly 500 rows: the run from the
    command line hands all of its rows to [record_to_df], in the order the
    sampler gives them, so the full dataset is processed.  On a table of
    three rows the sampler fails, and no table of 500 rows is processed. *)
Lemma cli_full_table_at_500 :
  cli_dataset sample_rows ["main.py"; "--run_name"; "exp-1"] [] (seq 0 500)
    = Ok (rotate (SEED `mod` 501) (seq 0 500)) /\
  rotate (SEED `mod` 501) (seq 0 500) ≡ₚ seq 0 500 /\
  cli_dataset sample_rows ["main.py"; "--run_name"; "exp-1"] [] [1; 2; 3]
    = Raise ValueError.
Proof.
  split; [vm_compute; reflexivity |].
  split; [apply rotate_Permutation | vm_compute; reflexivity].
Qed.

End CliFacts.

(* ===================================================================== *)
(** * Further properties of the modelled code                             *)
(* ===================================================================== *)

(** ** Record Normalizer: every outcome of a row *)

Module NormalizerOutcomes.
Import Normalizer NormalizerFacts.

(** X1.  A row is normalised exactly when its [problems] string decodes to
    a dict holding ['question'] and ['choices']; the record then carries
    these two values as decoded, the answer and [question_plus] as decoded
    or [None] when their key is absent.  A dict without ['question'] fails
    with [KeyError('question')] whatever else it holds, one with
    ['question'] but without ['choices'] with [KeyError('choices')], and a
    decoded value that is not a dict with [TypeError]. *)
Theorem record_of_row_outcomes (literal_eval : string -> option pyval) (row : RawRow) :
  (forall r, record_of_row literal_eval row = Ok r <->
     exists items q c,
       literal_eval (row_problems row) = Some (PyDict items) /\
       dict_lookup "question" items = Some q /\
       dict_lookup "choices" items = Some c /\
       r = mkFlatRecord (row_id row) (row_paragraph row) q c
             (default PyNone (dict_lookup "answer" items))
             (default PyNone (dict_lookup "question_plus" items))) /\
  (forall items,
     literal_eval (row_problems row) = Some (PyDict items) ->
     dict_lookup "question" items = None ->
     record_of_row literal_eval row = Raise (KeyError "question")) /\
  (forall items q,
     literal_eval (row_problems row) = Some (PyDict items) ->
     dict_lookup "question" items = Some q ->
     dict_lookup "choices" items = None ->
     record_of_row literal_eval row = Raise (KeyError "choices")) /\
  (forall v,
     literal_eval (row_problems row) = Some v ->
     (forall items, v <> PyDict items) ->
     record_of_row literal_eval row = Raise TypeError).
Proof.
  rewrite record_of_row_cases. repeat apply conj.
  - intros r. split.
    + destruct (literal_eval (row_problems row)) as [[| | | |items]|]; try discriminate.
      destruct (dict_lookup "question" items) as [q|] eqn:Hq; [| discriminate].
      destruct (dict_lookup "choices" items) as [c|] eqn:Hc; [| discriminate].
      intros Hr. injection Hr as <-. exists items, q, c. auto.
    + intros (items & q & c & -> & -> & -> & ->). reflexivity.
  - intros items -> ->. reflexivity.
  - intros items q -> -> ->. reflexivity.
  - intros v -> Hv. destruct v; try reflexivity. destruct (Hv items). reflexivity.
Qed.

End NormalizerOutcomes.

(** ** Prompt Builder: templates, and the two builders side by side *)

Module PromptMore.
Import Prompt PromptFacts.

(** X2.  The template with the exhibit is used exactly for the records
    whose [question_plus] is a non-empty string, and it gets the four
    fields; a record whose [question_plus] is [None] or empty is rendered
    with the other template, which gets no [question_plus] field.  The
    template that is not selected has no influence on the message. *)
Theorem template_selection
  (format : string -> list (string * string) -> result string)
  (q_plus no_q_plus : string) (r : ExamRecord) :
  (truthy (question_plus r) = true <-> exists s, question_plus r = Some s /\ s <> "") /\
  (forall s, question_plus r = Some s -> s <> "" ->
     user_message format q_plus no_q_plus r
     = format q_plus [("paragraph", paragraph r); ("question", question r);
                      ("question_plus", s); ("choices", choices_string (choices r))] /\
     forall other, user_message format q_plus other r = user_message format q_plus no_q_plus r) /\
  (question_plus r = None \/ question_plus r = Some "" ->
     user_message format q_plus no_q_plus r
     = format no_q_plus [("paragraph", paragraph r); ("question", question r);
                         ("choices", choices_string (choices r))] /\
     forall other, user_message format other no_q_plus r = user_message format q_plus no_q_plus r).
Proof.
  unfold user_message. destruct (question_plus r) as [s|]; simpl.
  - destruct (String.eqb_spec s "") as [->|Hs]; simpl.
    + split; [split; [discriminate | intros (s & E & Hs); congruence] |].
      split; [intros s E Hs; congruence |]. intros _. split; reflexivity.
    + split; [split; [eauto | reflexivity] |].
      split; [intros s' E _; injection E as <-; split; reflexivity |].
      intros [E | E]; congruence.
  - split; [split; [discriminate | intros (s & E & _); discriminate] |].
    split; [intros s E; discriminate |]. intros _. split; reflexivity.
Qed.

Section SideBySide.

Variable format : string -> list (string * string) -> result string.
Variables q_plus no_q_plus : string.

(** Both builders go through [user_message], so they end alike. *)
Lemma builders_end_alike (ds : list ExamRecord) :
  match train_df_to_process_df format ds q_plus no_q_plus,
        test_df_to_process_df format ds q_plus no_q_plus with
  | Ok out, Ok items =>
      Forall2 (fun ex it =>
        train_id ex = item_id it /\ train_label ex = item_label it /\
        train_messages ex
        = item_messages it ++ [mkMessage assistant (str_of_answer (train_label ex))])
        out items
  | Raise e, Raise e' => e = e'
  | _, _ => False
  end.
Proof.
  unfold train_df_to_process_df, test_df_to_process_df.
  induction ds as [|r ds IH]; simpl; [constructor |].
  assert (Ht : train_example format q_plus no_q_plus r
               = (msg <- user_message format q_plus no_q_plus r ;;
                  Ok (mkTrainExample (id r)
                        [mkMessage system system_prompt; mkMessage user msg;
                         mkMessage assistant (str_of_answer (answer r))]
                        (answer r)))) by reflexivity.
  assert (Hi : inference_item format q_plus no_q_plus r
               = (msg <- user_message format q_plus no_q_plus r ;;
                  Ok (mkInferenceItem (id r)
                        [mkMessage system system_prompt; mkMessage user msg]
                        (answer r) (List.length (choices r))))) by reflexivity.
  rewrite Ht, Hi. clear Ht Hi.
  destruct (user_message format q_plus no_q_plus r) as [msg|e]; simpl; [| reflexivity].
  destruct (mapM (train_example format q_plus no_q_plus) ds) as [out|e1],
           (mapM (inference_item format q_plus no_q_plus) ds) as [items|e2];
    simpl; try exact IH.
  constructor; [| exact IH]. simpl. auto.
Qed.

End SideBySide.

(** X3.  On the same records and templates the training builder and the
    inference builder fail together, with the same exception, or succeed
    together; then example [i] and item [i] have the same id and label,
    and the messages of the example are those of the item followed by the
    assistant turn that holds the stringified label. *)
Theorem train_and_inference_prompts_agree
  (format : string -> list (string * string) -> result string)
  (q_plus no_q_plus : string) (ds : list ExamRecord) :
  (forall e, train_df_to_process_df format ds q_plus no_q_plus = Raise e <->
             test_df_to_process_df format ds q_plus no_q_plus = Raise e) /\
  ((exists out, train_df_to_process_df format ds q_plus no_q_plus = Ok out) <->
   (exists items, test_df_to_process_df format ds q_plus no_q_plus = Ok items)) /\
  (forall out items,
     train_df_to_process_df format ds q_plus no_q_plus = Ok out ->
     test_df_to_process_df format ds q_plus no_q_plus = Ok items ->
     Forall2 (fun ex it =>
       train_id ex = item_id it /\ train_label ex = item_label it /\
       train_messages ex
       = item_messages it ++ [mkMessage assistant (str_of_answer (train_label ex))])
       out items).
Proof.
  pose proof (builders_end_alike format q_plus no_q_plus ds) as Halike.
  destruct (train_df_to_process_df format ds q_plus no_q_plus) as [out|e1],
           (test_df_to_process_df format ds q_plus no_q_plus) as [items|e2];
    try contradiction.
  - split; [intros e; split; discriminate |].
    split; [split; eauto |].
    intros out' items' E1 E2. injection E1 as <-. injection E2 as <-. exact Halike.
  - subst e2. split; [intros e; split; intros E; injection E as ->; reflexivity |].
    split; [split; intros (x & E); discriminate |].
    intros out items E. discriminate.
Qed.

(** The message of a record is what one of the two templates renders from
    keyword arguments that hold the choices block as their [choices]. *)
Lemma user_message_choices_field
  (format : string -> list (string * string) -> result string)
  (q_plus no_q_plus : string) (r : ExamRecord) (msg : string) :
  user_message format q_plus no_q_plus r = Ok msg ->
  exists template kwargs,
    (template = q_plus \/ template = no_q_plus) /\
    format template kwargs = Ok msg /\
    ("choices", choices_string (choices r)) ∈ kwargs.
Proof.
  unfold user_message. destruct (truthy (question_plus r)); intros Hmsg.
  - eexists q_plus, _. split; [auto |]. split; [exact Hmsg |].
    apply list_elem_of_In. simpl. auto.
  - eexists no_q_plus, _. split; [auto |]. split; [exact Hmsg |].
    apply list_elem_of_In. simpl. auto.
Qed.

End PromptMore.

(** ** Choice Scorer: counts outside 2..5, lookup errors, the two paths *)

Module ScorerMore.
Import Scorer ScorerFacts Inference.

Section Scalars.

Context {T : Type} `{Scalar T}.

Lemma predict_value_target (vocab : gmap string nat) (logits target : list T) (n : nat) :
  target_logit_list vocab logits n = Ok target ->
  predict_value vocab logits n = (k <- argmax (softmax target) ;; pred_choice k).
Proof. intros Ht. unfold predict_value. rewrite Ht. reflexivity. Qed.

Lemma predict_value_target_Raise (vocab : gmap string nat) (logits : list T) (n : nat) (e : exn) :
  target_logit_list vocab logits n = Raise e -> predict_value vocab logits n = Raise e.
Proof. intros Ht. unfold predict_value. rewrite Ht. reflexivity. Qed.

(** The gathering loop fails at the first digit it cannot fetch. *)
Lemma target_logit_list_first_failure (vocab : gmap string nat) (logits : list T)
  (n i : nat) (e : exn) :
  i < n ->
  (forall j, j < i ->
     exists k, vocab !! str_of_nat (j + 1) = Some k /\ k < List.length logits) ->
  (k <- vocab_get vocab (str_of_nat (i + 1)) ;; list_getitem logits k) = Raise e ->
  target_logit_list vocab logits n = Raise e.
Proof.
  intros Hi Hbefore Hfail. unfold target_logit_list. apply mapM_Raise.
  exists (seq 0 i), i, (seq (S i) (n - S i)). split; [| split].
  - replace n with (i + S (n - S i)) at 1 by lia. rewrite seq_app. reflexivity.
  - apply Forall_forall. intros j Hj. apply list_elem_of_In, in_seq in Hj.
    destruct (Hbefore j) as (k & Hk & Hlt); [lia |].
    destruct (lookup_lt_is_Some_2 logits k Hlt) as (v & Hv).
    exists v. apply vocab_get_Ok in Hk. rewrite Hk. simpl.
    apply list_getitem_Ok. exact Hv.
  - exact Hfail.
Qed.

(** A digit returned by the scorer stands for a position below the count
    and below five. *)
Lemma predict_value_digit (vocab : gmap string nat) (logits : list T) (n : nat) (d : string) :
  predict_value vocab logits n = Ok d ->
  exists k, k < n /\ k < 5 /\ d = digit_of_prediction k /\ d ∈ digit_tokens.
Proof.
  intros Hd. unfold predict_value in Hd.
  apply bind_Ok in Hd as (target & Ht & Hd).
  apply bind_Ok in Hd as (k & Hk & Hd).
  apply target_logit_list_Ok in Ht as [Hlen _].
  apply argmax_Ok in Hk. rewrite softmax_length, Hlen in Hk.
  apply pred_choice_Ok in Hd as [Hk5 ->].
  exists k. repeat (split; [assumption || reflexivity |]).
  unfold digit_of_prediction.
  do 5 (destruct k as [|k]; [vm_compute; set_solver |]). lia.
Qed.

End Scalars.

(** X5.  Outside the counts 2 to 5 the inference scorer behaves as
    follows.  With no choice it always fails with [ValueError] (the
    maximum of an empty list).  Whatever the count, a digit it returns is
    one of ["1"] to ["5"] and stands for a position below the count.  With
    more than five choices, when the best score is at position 5 or
    later, it fails with a [KeyError] for that position, for
    [pred_choices_map] stops at 4. *)
Theorem predict_value_any_count {T : Type} `{Scalar T} (vocab : gmap string nat)
  (logits : list T) :
  predict_value vocab logits 0 = Raise ValueError /\
  (forall N d, predict_value vocab logits N = Ok d ->
     exists k, k < N /\ k < 5 /\ d = digit_of_prediction k /\ d ∈ digit_tokens) /\
  (forall N target k,
     target_logit_list vocab logits N = Ok target ->
     argmax (softmax target) = Ok k ->
     5 <= k ->
     5 < N /\ predict_value vocab logits N = Raise (KeyError (str_of_nat k))).
Proof.
  split; [reflexivity |]. split.
  - intros N d. apply predict_value_digit.
  - intros N target k Ht Hk Hk5.
    pose proof (argmax_Ok _ _ Hk) as Hlt. rewrite softmax_length in Hlt.
    pose proof (target_logit_list_Ok _ _ _ _ Ht) as [Hlen _].
    split; [lia |].
    rewrite (predict_value_target _ _ _ _ Ht), Hk. simpl. unfold pred_choice.
    destruct (pred_choices_map !! k) as [d|] eqn:Hd; [| reflexivity].
    assert (Hok : pred_choice k = Ok d) by (unfold pred_choice; rewrite Hd; reflexivity).
    apply pred_choice_Ok in Hok. lia.
Qed.

(** X6.  The inference scorer fetches the digits in ascending order and
    fails at the first one it cannot fetch: with [KeyError] of the digit
    when the vocabulary lacks it, with [IndexError] when its id lies
    beyond the logits. *)
Theorem predict_value_lookup_errors {T : Type} `{Scalar T} (vocab : gmap string nat)
  (logits : list T) (N i : nat) :
  i < N ->
  (forall j, j < i ->
     exists k, vocab !! str_of_nat (j + 1) = Some k /\ k < List.length logits) ->
  (vocab !! str_of_nat (i + 1) = None ->
     predict_value vocab logits N = Raise (KeyError (str_of_nat (i + 1)))) /\
  (forall k, vocab !! str_of_nat (i + 1) = Some k -> List.length logits <= k ->
     predict_value vocab logits N = Raise IndexError).
Proof.
  intros Hi Hbefore. split.
  - intros Hnone. apply predict_value_target_Raise.
    apply (target_logit_list_first_failure vocab logits N i); [assumption .. |].
    unfold vocab_get. rewrite Hnone. reflexivity.
  - intros k Hk Hlen. apply predict_value_target_Raise.
    apply (target_logit_list_first_failure vocab logits N i); [assumption .. |].
    unfold vocab_get. rewrite Hk. simpl. unfold list_getitem.
    rewrite lookup_ge_None_2 by exact Hlen. reflexivity.
Qed.

(** Five choices over a vocabulary without ["5"] fail with
    [KeyError('5')]; four choices over logits cut after the id of ["2"]
    fail with [IndexError]. *)
Lemma predict_value_lookup_errors_witness :
  predict_value four_digit_vocab sample_logits 5 = Raise (KeyError "5") /\
  predict_value sample_vocab [0; 0; 1; 5]%Q 4 = Raise IndexError.
Proof.
  split.
  - refine (proj1 (predict_value_lookup_errors four_digit_vocab sample_logits 5 4 _ _) _).
    + lia.
    + intros j Hj.
      destruct j as [|[|[|[|j]]]];
        [eexists; split; [vm_compute; reflexivity | simpl; lia] .. | lia].
    + vm_compute. reflexivity.
  - refine (proj2 (predict_value_lookup_errors sample_vocab [0; 0; 1; 5]%Q 4 2 _ _) 4 _ _).
    + lia.
    + intros j Hj.
      destruct j as [|[|j]];
        [eexists; split; [vm_compute; reflexivity | simpl; lia] .. | lia].
    + vm_compute. reflexivity.
    + simpl. lia.
Defined.

(** X7.  [preprocess_logits_for_metrics] fails with [IndexError] on an
    empty tuple; with [KeyError] of the first of the digits ["1"] to ["5"]
    that the vocabulary lacks, whatever the batch holds (also when every
    record has fewer than five choices, or the batch is empty); and with
    [IndexError] at the first example that has fewer than two positions. *)
Theorem preprocess_error_cases {T L : Type} (vocab : gmap string nat) (labels : L) :
  preprocess_logits_for_metrics vocab (@Tuple T []) labels = Raise IndexError /\
  (forall (t : list (list (list T))) pre tok suf,
     digit_tokens = pre ++ tok :: suf ->
     Forall (fun d => is_Some (vocab !! d)) pre ->
     vocab !! tok = None ->
     preprocess_logits_for_metrics vocab (Tensor t) labels = Raise (KeyError tok)) /\
  (forall (pre : list (list (list T))) example suf kept,
     preprocess_logits_for_metrics vocab (Tensor pre) labels = Ok kept ->
     List.length example < 2 ->
     preprocess_logits_for_metrics vocab (Tensor (pre ++ example :: suf)) labels
     = Raise IndexError).
Proof.
  split; [reflexivity |]. split.
  - intros t pre tok suf Hsplit Hpre Htok.
    assert (Hidx : mapM (vocab_get vocab) digit_tokens = Raise (KeyError tok)).
    { apply mapM_Raise. exists pre, tok, suf. split; [exact Hsplit |]. split.
      - eapply Forall_impl; [exact Hpre |]. intros d (k & Hk).
        exists k. apply vocab_get_Ok. exact Hk.
      - unfold vocab_get. rewrite Htok. reflexivity. }
    unfold preprocess_logits_for_metrics.
    change (bind (Ok t) ?k) with (k t). cbv beta. rewrite Hidx. reflexivity.
  - intros pre example suf kept Hkept Hshort.
    unfold preprocess_logits_for_metrics in *.
    change (bind (Ok ?t) ?k) with (k t) in *. cbv beta in *.
    apply bind_Ok in Hkept as (idx & Hidx & Hkept). rewrite Hidx.
    change (bind (Ok idx) ?k) with (k idx). cbv beta.
    apply mapM_Raise. exists pre, example, suf. split; [reflexivity |]. split.
    + apply mapM_Ok in Hkept. apply Forall_forall. intros ex Hex.
      apply list_elem_of_lookup in Hex as (j & Hj).
      destruct (Forall2_lookup_l _ _ _ _ _ Hkept Hj) as (out & _ & Hout). eauto.
    + unfold list_getitem_neg.
      destruct (Nat.ltb_spec (List.length example) 2); [reflexivity | lia].
Qed.

(** Without ["5"] in the vocabulary the evaluation fails on any batch. *)
Example preprocess_without_five :
  preprocess_logits_for_metrics four_digit_vocab
    (Tensor [[[0; 0; 10; 11; 12; 13]; [0; 0; 20; 21; 22; 23]]]) tt
  = Raise (KeyError "5").
Proof. vm_compute. reflexivity. Qed.

(** X8.  With five choices the two scoring paths agree: when the
    evaluation run predicts position [p] for an example, the inference
    scorer, given the logits of the second-to-last position of that
    example and [N = 5], answers the digit [p + 1]. *)
Theorem eval_agrees_with_inference_at_five {T L : Type} `{Scalar T}
  (vocab : gmap string nat) (example : list (list T)) (labels : L) (p : nat) :
  eval_predictions vocab (Tensor [example]) labels = Ok [p] ->
  exists row,
    example !! (List.length example - 2) = Some row /\
    p < 5 /\
    predict_value vocab row 5 = Ok (digit_of_prediction p).
Proof.
  unfold eval_predictions. intros Hp.
  apply bind_Ok in Hp as (kept & Hkept & Hp).
  unfold preprocess_logits_for_metrics in Hkept.
  change (bind (Ok ?t) ?k) with (k t) in Hkept. cbv beta in Hkept.
  apply bind_Ok in Hkept as (idx & Hidx & Hkept).
  simpl in Hkept.
  apply bind_Ok in Hkept as (out & Hout & Hkept). injection Hkept as <-.
  apply bind_Ok in Hout as (row & Hrow & Hout).
  apply list_getitem_neg_Ok in Hrow as [_ Hrow].
  unfold compute_metrics_predictions in Hp. simpl in Hp.
  apply bind_Ok in Hp as (p' & Hp' & Hp). injection Hp as ->.
  exists row. split; [exact Hrow |].
  assert (Ht : target_logit_list vocab row 5 = Ok out).
  { unfold target_logit_list. simpl in Hidx |- *.
    change (str_of_nat 1) with "1". change (str_of_nat 2) with "2".
    change (str_of_nat 3) with "3". change (str_of_nat 4) with "4".
    change (str_of_nat 5) with "5".
    destruct (vocab_get vocab "1") as [k1|]; [| discriminate].
    destruct (vocab_get vocab "2") as [k2|]; [| discriminate].
    destruct (vocab_get vocab "3") as [k3|]; [| discriminate].
    destruct (vocab_get vocab "4") as [k4|]; [| discriminate].
    destruct (vocab_get vocab "5") as [k5|]; [| discriminate].
    simpl in Hidx. injection Hidx as <-. simpl in Hout |- *.
    destruct (list_getitem row k1); [| discriminate].
    destruct (list_getitem row k2); [| discriminate].
    destruct (list_getitem row k3); [| discriminate].
    destruct (list_getitem row k4); [| discriminate].
    destruct (list_getitem row k5); [| discriminate].
    exact Hout. }
  pose proof (target_logit_list_Ok _ _ _ _ Ht) as [Hlen _].
  pose proof (argmax_Ok _ _ Hp') as Hlt. rewrite softmax_length, Hlen in Hlt.
  split; [exact Hlt |].
  rewrite (predict_value_target _ _ _ _ Ht), Hp'. simpl.
  apply pred_choice_Ok. auto.
Qed.

(** The sample logits at the second-to-last position: both paths choose
    position 4, the digit "5". *)
Lemma eval_agrees_with_inference_at_five_witness :
  exists row,
    [[0; 0; 0; 0; 0; 0; 0]; sample_logits; [0; 9; 0; 0; 0; 0; 0]]%Q
      !! (List.length [[0; 0; 0; 0; 0; 0; 0]; sample_logits; [0; 9; 0; 0; 0; 0; 0]]%Q - 2)
      = Some row /\
    4 < 5 /\
    predict_value sample_vocab row 5 = Ok (digit_of_prediction 4).
Proof.
  refine (eval_agrees_with_inference_at_five sample_vocab
            [[0; 0; 0; 0; 0; 0; 0]; sample_logits; [0; 9; 0; 0; 0; 0; 0]]%Q tt 4 _).
  vm_compute. reflexivity.
Defined.

End ScorerMore.

(** ** Length filter: changing the limit *)

Module PipelineMore.
Import Pipeline.

(** X9.  Filtering twice is filtering once at the smaller limit; a larger
    limit never drops an example that a smaller one keeps, and keeps the
    order; the filter leaves the dataset unchanged exactly when no example
    is longer than the limit. *)
Theorem filter_max_len_limits (ds : list TokenizedExample) :
  (forall L L', filter_max_len L (filter_max_len L' ds) = filter_max_len (L `min` L') ds) /\
  (forall L L', L <= L' -> sublist (filter_max_len L ds) (filter_max_len L' ds)) /\
  (forall L, filter_max_len L ds = ds <->
             Forall (fun x => List.length (input_ids x) <= L) ds).
Proof.
  assert (Htwice : forall L L',
            filter_max_len L (filter_max_len L' ds) = filter_max_len (L `min` L') ds).
  { intros L L'. unfold filter_max_len. rewrite list_filter_filter.
    apply list_filter_iff. intros x. lia. }
  split; [exact Htwice |]. split.
  - intros L L' HL. replace L with (L `min` L') at 1 by lia.
    rewrite <- Htwice. apply sublist_filter.
  - intros L. unfold filter_max_len. split.
    + intros Hid. apply Forall_forall. intros x Hx.
      rewrite <- Hid in Hx. apply list_elem_of_filter in Hx. tauto.
    + clear Htwice. induction 1 as [|x l Hx _ IH]; [reflexivity |].
      rewrite filter_cons_True by exact Hx. rewrite IH. reflexivity.
Qed.

End PipelineMore.

(** ** Entry point: where the flag stands, and the prompt loop *)

Module CliMore.
Import Cli CliFacts.

Lemma list_index_first (x : string) (pre rest : list string) :
  x ∉ pre -> list_index x (pre ++ x :: rest) = Ok (List.length pre).
Proof.
  induction pre as [|y pre IH]; simpl; intros Hx.
  - rewrite String.eqb_refl. reflexivity.
  - apply not_elem_of_cons in Hx as [Hne Hx].
    destruct (String.eqb_spec y x) as [->|_]; [congruence |].
    rewrite (IH Hx). reflexivity.
Qed.

(** X10.  What the entry point does depends only on what follows the
    first [--run_name]: with no such argument it runs the prompt loop;
    with the flag as last argument it fails with [IndexError] and shows no
    prompt; otherwise it takes the next argument as the run name, without
    any prompt, also when that argument is empty, and passes
    [debug=True]. *)
Theorem entry_by_flag_position (pre stdin : list string) :
  "--run_name" ∉ pre ->
  entry pre stdin
    = (fst (ask_run_name stdin), name <- snd (ask_run_name stdin) ;; Ok (name, true)) /\
  entry (pre ++ ["--run_name"]) stdin = ([], Raise IndexError) /\
  (forall v rest, entry (pre ++ "--run_name" :: v :: rest) stdin = ([], Ok (v, true))).
Proof.
  intros Hflag. split; [apply entry_without_flag; exact Hflag |].
  split; [apply entry_flag_last; exact Hflag |].
  intros v rest. unfold entry, argv_run_name.
  rewrite (list_index_first _ _ _ Hflag). simpl. unfold list_getitem.
  replace (List.length pre + 1) with (List.length pre + 1 + 0) by lia.
  rewrite lookup_app_r by lia.
  replace (List.length pre + 1 + 0 - List.length pre) with 1 by lia. reflexivity.
Qed.

(** The three ways of launching [main.py]. *)
Lemma entry_by_flag_position_witness :
  entry ["main.py"] ["exp-1"] = ([Prompted missing_prompt], Ok ("exp-1", true)) /\
  entry (["main.py"] ++ ["--run_name"]) ["exp-1"] = ([], Raise IndexError) /\
  entry (["main.py"] ++ "--run_name" :: "" :: ["--do_train"]) ["exp-1"] = ([], Ok ("", true)).
Proof.
  refine (let H := entry_by_flag_position ["main.py"] ["exp-1"] _ in
          conj (proj1 H) (conj (proj1 (proj2 H)) (proj2 (proj2 H) "" ["--do_train"]))).
  intros Hin. apply list_elem_of_In in Hin. simpl in Hin.
  destruct Hin as [Hin | []]. discriminate.
Defined.

(** X11.  The prompt loop returns the first non-empty line it reads, after
    one prompt for each empty line before it and one for that line; the
    name it returns is never empty.  It fails only when every line is
    empty, with [EOFError], after one prompt per line and one more. *)
Theorem ask_run_name_outcomes (stdin : list string) :
  (forall name, snd (ask_run_name stdin) = Ok name ->
     name <> "" /\
     exists n rest, stdin = replicate n "" ++ name :: rest /\
                    fst (ask_run_name stdin) = replicate (S n) (Prompted missing_prompt)) /\
  (forall e, snd (ask_run_name stdin) = Raise e ->
     e = EOFError /\ Forall (fun line => line = "") stdin /\
     fst (ask_run_name stdin)
     = replicate (S (List.length stdin)) (Prompted missing_prompt)) /\
  (Forall (fun line => line = "") stdin -> snd (ask_run_name stdin) = Raise EOFError).
Proof.
  induction stdin as [|line stdin (IHok & IHerr & IHall)]; simpl.
  - split; [intros name E; discriminate |].
    split; [| reflexivity].
    intros e E. injection E as <-. repeat split. constructor.
  - destruct (String.eqb_spec line "") as [->|Hline].
    + destruct (ask_run_name stdin) as [shown r] eqn:Hask. simpl in *.
      split; [| split].
      * intros name Hname. destruct (IHok name Hname) as (Hne & n & rest & -> & Hshown).
        split; [exact Hne |]. exists (S n), rest. split; [reflexivity |].
        rewrite Hshown. reflexivity.
      * intros e He. destruct (IHerr e He) as (-> & Hall & Hshown).
        split; [reflexivity |]. split; [constructor; [reflexivity | exact Hall] |].
        rewrite Hshown. reflexivity.
      * intros Hall. apply IHall. inversion Hall; assumption.
    + simpl. split; [| split].
      * intros name E. injection E as <-. split; [exact Hline |].
        exists 0, stdin. split; reflexivity.
      * intros e E. discriminate.
      * intros Hall. inversion Hall; subst. congruence.
Qed.

End CliMore.

(** ** Set-up of [main] *)

Module SetupFacts.
Import Setup.

(** X12.  The name of the tracked run starts with ["[train]"] whenever
    training is on, whatever the evaluation flag, and the mode and the
    run name can be read back from it: two runs get the same tracked name
    only with the same prefix and the same run name. *)
Theorem wandb_name_inj (do_train do_eval do_train' do_eval' : bool) (run_name run_name' : string) :
  wandb_name do_train do_eval run_name = wandb_name do_train' do_eval' run_name' ->
  project_prefix do_train do_eval = project_prefix do_train' do_eval' /\
  run_name = run_name' /\
  (do_train = true -> project_prefix do_train do_eval = "[train]") /\
  (project_prefix do_train do_eval = "[train]" -> do_train = true).
Proof.
  unfold wandb_name. intros Hname.
  destruct do_train, do_eval, do_train', do_eval'; cbn in Hname;
    try discriminate; injection Hname as Hname; cbv in Hname; subst run_name';
    repeat split; try reflexivity; try discriminate.
Qed.

Lemma wandb_name_inj_witness :
  project_prefix true false = project_prefix true true /\
  "exp-1" = "exp-1" /\
  (true = true -> project_prefix true false = "[train]") /\
  (project_prefix true false = "[train]" -> true = true).
Proof. apply (wandb_name_inj true false true true "exp-1" "exp-1"). reflexivity. Defined.

(** X13.  Whatever [custom_args] holds, the model is loaded either with a
    [torch_dtype] or with a quantization configuration, never with both
    and never with neither; a configuration that is passed is the one
    selected by [quantization = 4] or [= 8] and is a [BitsAndBytesConfig];
    any other value of [quantization] loads the model unquantized, with
    dtype auto when training and float16 otherwise. *)
Theorem quantization_args {Config : Type} (is_bnb : Config -> bool) (quant : option Z)
  (quant_4_bit_config quant_8_bit_config : option Config) (do_train : bool) :
  let quant_config := select_quant_config quant quant_4_bit_config quant_8_bit_config in
  let args := from_pretrained_args is_bnb do_train quant_config in
  (torch_dtype args = None <-> is_Some (quantization_config args)) /\
  (forall c, quantization_config args = Some c ->
     is_bnb c = true /\
     ((quant = Some 4%Z /\ quant_4_bit_config = Some c) \/
      (quant = Some 8%Z /\ quant_8_bit_config = Some c))) /\
  (quant <> Some 4%Z -> quant <> Some 8%Z ->
     quantization_config args = None /\
     torch_dtype args = Some (if do_train then dtype_auto else dtype_float16)).
Proof.
  intros quant_config args. subst args quant_config.
  unfold from_pretrained_args, select_quant_config, isinstance_bnb. simpl.
  destruct (bool_decide_reflect (quant = Some 4%Z)) as [H4|H4];
    [| destruct (bool_decide_reflect (quant = Some 8%Z)) as [H8|H8]].
  - destruct quant_4_bit_config as [c|]; [destruct (is_bnb c) eqn:Hc |]; simpl.
    + split; [split; eauto |]. split; [| congruence].
      intros c' E. injection E as <-. auto.
    + split; [split; [discriminate | intros []; discriminate] |].
      split; [discriminate | congruence].
    + split; [split; [discriminate | intros []; discriminate] |].
      split; [discriminate | congruence].
  - destruct quant_8_bit_config as [c|]; [destruct (is_bnb c) eqn:Hc |]; simpl.
    + split; [split; eauto |]. split; [| congruence].
      intros c' E. injection E as <-. auto.
    + split; [split; [discriminate | intros []; discriminate] |].
      split; [discriminate | congruence].
    + split; [split; [discriminate | intros []; discriminate] |].
      split; [discriminate | congruence].
  - simpl. split; [split; [discriminate | intros []; discriminate] |].
    split; [discriminate | auto].
Qed.

Lemma ascii_compare_refl (c : ascii) : Ascii.compare c c = Eq.
Proof.
  pose proof (Ascii.compare_antisym c c) as Hc.
  destruct (Ascii.compare c c); [reflexivity | discriminate ..].
Qed.

Lemma compare_common_prefix (p a b : string) :
  String.compare (p +:+ a) (p +:+ b) = String.compare a b.
Proof.
  induction p as [|c p IH]; simpl; [reflexivity |].
  rewrite ascii_compare_refl. exact IH.
Qed.

Lemma sorted_elem_of (entries : list string) (x : string) : x ∈ sorted entries <-> x ∈ entries.
Proof. unfold sorted. rewrite merge_sort_Permutation. reflexivity. Qed.

Lemma latest_ckpt_last (entries : list string) (c : string) :
  latest_ckpt entries = Ok c <-> last (sorted entries) = Some c.
Proof.
  unfold latest_ckpt, list_getitem_neg, list_getitem. rewrite last_lookup.
  destruct (sorted entries) as [|x l]; simpl; [split; discriminate |].
  rewrite Nat.sub_0_r. destruct ((x :: l) !! List.length l); split; congruence.
Qed.

Lemma sorted_last_upper (l l' : list string) (c : string) :
  sorted l = l' ++ [c] -> forall e, e ∈ l -> String.le e c.
Proof.
  intros Hl' e He.
  assert (Hs : StronglySorted String.le (l' ++ [c])).
  { rewrite <- Hl'. unfold sorted. apply StronglySorted_merge_sort; apply _. }
  apply sorted_elem_of in He. rewrite Hl' in He.
  apply elem_of_app in He as [He | He].
  - apply (StronglySorted_app_1_elem_of _ _ _ _ _ Hs He). set_solver.
  - apply list_elem_of_singleton in He as ->. reflexivity.
Qed.

(** X14.  The checkpoint chosen for evaluation or prediction is the entry
    of the directory that is greatest in the order of strings: it is an
    entry, no entry is greater, and this determines it.  An empty
    directory fails with [IndexError].  The order is not that of the
    step numbers: of two entries that differ only by the endings 9 and
    10, the one ending in 9 is chosen. *)
Theorem latest_ckpt_greatest (entries : list string) :
  latest_ckpt [] = Raise IndexError /\
  (forall c, latest_ckpt entries = Ok c <->
     c ∈ entries /\ forall e, e ∈ entries -> String.le e c) /\
  (entries <> [] -> exists c, latest_ckpt entries = Ok c) /\
  (forall p, latest_ckpt [p +:+ "9"; p +:+ "10"] = Ok (p +:+ "9") /\
             latest_ckpt [p +:+ "10"; p +:+ "9"] = Ok (p +:+ "9")).
Proof.
  assert (Hmax : forall l c, latest_ckpt l = Ok c <->
            c ∈ l /\ forall e, e ∈ l -> String.le e c).
  { intros l c. rewrite latest_ckpt_last. split.
    - intros Hlast. apply last_Some in Hlast as (l' & Hl'). split.
      + apply sorted_elem_of. rewrite Hl'. set_solver.
      + apply (sorted_last_upper l l' c Hl').
    - intros [Hc Hub].
      destruct (last (sorted l)) as [c'|] eqn:Hlast.
      + f_equal. apply last_Some in Hlast as (l' & Hl').
        apply (anti_symm String.le).
        * apply Hub, sorted_elem_of. rewrite Hl'. set_solver.
        * apply (sorted_last_upper l l' c' Hl'). exact Hc.
      + apply last_None in Hlast. apply sorted_elem_of in Hc.
        rewrite Hlast in Hc. destruct (not_elem_of_nil _ Hc). }
  split; [reflexivity |]. split; [apply Hmax |]. split.
  - intros Hne. destruct (last (sorted entries)) as [c|] eqn:Hlast.
    + exists c. apply latest_ckpt_last. exact Hlast.
    + apply last_None in Hlast. destruct entries as [|x l]; [congruence |].
      assert (Hx : x ∈ sorted (x :: l)) by (apply sorted_elem_of; constructor).
      rewrite Hlast in Hx. destruct (not_elem_of_nil _ Hx).
  - assert (Hle : forall p, String.le (p +:+ "10") (p +:+ "9")).
    { intros p. unfold String.le, String.leb. rewrite compare_common_prefix. exact I. }
    intros p. split; apply Hmax;
      (split; [apply list_elem_of_In; simpl; auto |]); intros e He;
      apply list_elem_of_In in He; simpl in He;
      destruct He as [<- | [<- | []]]; (reflexivity || apply Hle).
Qed.

End SetupFacts.

(** ** The inference loop *)

Module InferenceFacts.
Import Prompt Scorer ScorerFacts ScorerMore Inference.

Section Loop.

Context {T : Type} `{Scalar T}.
Variable vocab : gmap string nat.
Variable model_logits : list PromptMessage -> result (list (list (list T))).
Variable do_RAG : bool.

(** A row is produced only without retrieval, from a successful call of
    the model, and holds the id of the item and a digit of its choices. *)
Lemma infer_item_row (data : InferenceItem) (row : Prediction) :
  infer_item vocab model_logits do_RAG data = inr row ->
  do_RAG = false /\
  pred_id row = item_id data /\
  pred_answer row ∈ valid_digits (len_choices data) /\
  pred_answer row ∈ digit_tokens.
Proof.
  unfold infer_item. destruct do_RAG; [discriminate |].
  destruct (model_logits (item_messages data)) as [output|e]; simpl; [| discriminate].
  destruct (infer vocab output (len_choices data)) as [d|e] eqn:Hd; [| discriminate].
  intros E. injection E as <-. simpl.
  unfold infer in Hd. apply bind_Ok in Hd as (logits & _ & Hd).
  split; [reflexivity |]. split; [reflexivity |]. split.
  - eapply predict_value_Ok. exact Hd.
  - apply predict_value_digit in Hd as (k & _ & _ & _ & Hk). exact Hk.
Qed.

(** An item without choices never yields a row. *)
Lemma infer_item_no_choice (data : InferenceItem) :
  len_choices data = 0 -> exists f, infer_item vocab model_logits do_RAG data = inl f.
Proof.
  intros Hzero. unfold infer_item. destruct do_RAG; [eauto |].
  destruct (model_logits (item_messages data)) as [output|e]; simpl; [| eauto].
  rewrite Hzero. unfold infer.
  destruct (last_position output) as [logits|e]; simpl; eauto.
Qed.

(** The loop appends one row per item to what it has, or fails at the
    first item that yields no row. *)
Lemma inference_loop_spec (items : list InferenceItem) (acc : list Prediction) :
  match inference_loop vocab model_logits do_RAG items acc with
  | Written rows =>
      exists new, rows = acc ++ new /\
        Forall2 (fun data row => infer_item vocab model_logits do_RAG data = inr row) items new
  | Failed f =>
      exists pre data suf, items = pre ++ data :: suf /\
        Forall (fun x => exists row, infer_item vocab model_logits do_RAG x = inr row) pre /\
        infer_item vocab model_logits do_RAG data = inl f
  end.
Proof.
  revert acc. induction items as [|data items IH]; intros acc; simpl.
  - exists []. rewrite app_nil_r. split; [reflexivity | constructor].
  - destruct (infer_item vocab model_logits do_RAG data) as [f|row] eqn:Hdata.
    + exists [], data, items. split; [reflexivity |]. split; [constructor | exact Hdata].
    + specialize (IH (acc ++ [row])).
      destruct (inference_loop vocab model_logits do_RAG items (acc ++ [row])) as [rows|f].
      * destruct IH as (new & -> & Hnew). exists (row :: new).
        rewrite <- app_assoc. split; [reflexivity |]. constructor; assumption.
      * destruct IH as (pre & d & suf & -> & Hpre & Hd).
        exists (data :: pre), d, suf. split; [reflexivity |].
        split; [constructor; eauto | exact Hd].
Qed.

End Loop.

(** X15.  When the prediction loop ends, it has produced one row per item
    of the test set, in the order of the items, each with the id of its
    item and, as answer, one of the digits ["1"] to ["5"] that numbers a
    choice of that item; and it has run without retrieval. *)
Theorem predictions_follow_items {T : Type} `{Scalar T} (vocab : gmap string nat)
  (model_logits : list PromptMessage -> result (list (list (list T)))) (do_RAG : bool)
  (items : list InferenceItem) (rows : list Prediction) :
  predict vocab model_logits do_RAG items = Written rows ->
  map pred_id rows = map item_id items /\
  Forall2 (fun data row =>
    pred_id row = item_id data /\
    pred_answer row ∈ valid_digits (len_choices data) /\
    pred_answer row ∈ digit_tokens) items rows /\
  (items <> [] -> do_RAG = false).
Proof.
  unfold predict. intros Hrows.
  pose proof (inference_loop_spec vocab model_logits do_RAG items []) as Hspec.
  rewrite Hrows in Hspec. destruct Hspec as (new & -> & Hnew). simpl.
  assert (Hfields : Forall2 (fun data row =>
            do_RAG = false /\ pred_id row = item_id data /\
            pred_answer row ∈ valid_digits (len_choices data) /\
            pred_answer row ∈ digit_tokens) items new).
  { eapply Forall2_impl; [exact Hnew |]. apply infer_item_row. }
  clear Hnew Hrows. split; [| split].
  - induction Hfields as [|data row items new (_ & Hid & _) _ IH]; simpl; [reflexivity |].
    rewrite Hid, IH. reflexivity.
  - eapply Forall2_impl; [exact Hfields |]. intros data row (_ & Hr). exact Hr.
  - intros Hne. destruct Hfields as [|data row items new (Hrag & _) _]; [congruence | exact Hrag].
Qed.

(** Two items scored by the sample model: two rows, ids kept. *)
Lemma predictions_follow_items_witness :
  map pred_id [mkPrediction "a" "5"; mkPrediction "b" "2"]
    = map item_id [mkInferenceItem "a" [] None 5; mkInferenceItem "b" [] None 4] /\
  Forall2 (fun data row =>
    pred_id row = item_id data /\
    pred_answer row ∈ valid_digits (len_choices data) /\
    pred_answer row ∈ digit_tokens)
    [mkInferenceItem "a" [] None 5; mkInferenceItem "b" [] None 4]
    [mkPrediction "a" "5"; mkPrediction "b" "2"] /\
  ([mkInferenceItem "a" [] None 5; mkInferenceItem "b" [] None 4] <> [] -> false = false).
Proof.
  apply (predictions_follow_items sample_vocab sample_model false).
  vm_compute. reflexivity.
Defined.

(** With retrieval switched on, the prediction loop fails at its
    first item with the [NameError] of [args], before the model is
    called, so nothing is predicted or written; only an empty test set
    gets through, with no row. *)
Theorem retrieval_fails_by_name {T : Type} `{Scalar T} (vocab : gmap string nat)
  (model_logits : list PromptMessage -> result (list (list (list T))))
  (items : list InferenceItem) :
  predict vocab model_logits true items
  = match items with
    | [] => Written []
    | _ :: _ => Failed (NameError "args")
    end /\
  (forall model_logits' : list PromptMessage -> result (list (list (list T))),
     predict vocab model_logits' true items = predict vocab model_logits true items).
Proof.
  destruct items as [|data items]; split; reflexivity.
Qed.

(** X17.  The predictions are all or nothing.  The loop fails exactly when
    some item yields no row, with the failure of the first such item, and
    then no row at all is written, whatever the items before it gave.  In
    particular one item without choices anywhere in the test set makes
    the whole run fail. *)
Theorem predictions_all_or_nothing {T : Type} `{Scalar T} (vocab : gmap string nat)
  (model_logits : list PromptMessage -> result (list (list (list T)))) (do_RAG : bool)
  (items : list InferenceItem) :
  (forall f, predict vocab model_logits do_RAG items = Failed f <->
     exists pre data suf, items = pre ++ data :: suf /\
       Forall (fun x => exists row, infer_item vocab model_logits do_RAG x = inr row) pre /\
       infer_item vocab model_logits do_RAG data = inl f) /\
  (forall data, data ∈ items -> len_choices data = 0 ->
     exists f, predict vocab model_logits do_RAG items = Failed f).
Proof.
  assert (Hfail : forall l acc pre data suf f,
            l = pre ++ data :: suf ->
            Forall (fun x => exists row, infer_item vocab model_logits do_RAG x = inr row) pre ->
            infer_item vocab model_logits do_RAG data = inl f ->
            inference_loop vocab model_logits do_RAG l acc = Failed f).
  { intros l acc pre. revert l acc.
    induction pre as [|x pre IH]; intros l acc data suf f -> Hpre Hdata; simpl.
    - rewrite Hdata. reflexivity.
    - inversion Hpre as [|? ? (row & Hrow) Hpre']; subst. rewrite Hrow.
      eapply IH; eauto. }
  split.
  - intros f. unfold predict. split.
    + intros Hf. pose proof (inference_loop_spec vocab model_logits do_RAG items []) as Hspec.
      rewrite Hf in Hspec. exact Hspec.
    + intros (pre & data & suf & Hitems & Hpre & Hdata). eapply Hfail; eauto.
  - intros data Hin Hzero. unfold predict.
    pose proof (inference_loop_spec vocab model_logits do_RAG items []) as Hspec.
    destruct (inference_loop vocab model_logits do_RAG items []) as [rows|f]; [| eauto].
    destruct Hspec as (new & _ & Hnew).
    apply list_elem_of_lookup in Hin as (i & Hi).
    destruct (Forall2_lookup_l _ _ _ _ _ Hnew Hi) as (row & _ & Hrow).
    destruct (infer_item_no_choice vocab model_logits do_RAG data Hzero) as (f & Hf).
    congruence.
Qed.

(** A test set whose second item has no choice: the run fails with the
    [ValueError] of that item, and the row of the first item is lost. *)
Example predictions_lost_sample :
  predict sample_vocab sample_model false
    [mkInferenceItem "a" [] None 5; mkInferenceItem "b" [] None 0; mkInferenceItem "c" [] None 4]
  = Failed (Raised ValueError).
Proof. vm_compute. reflexivity. Qed.

(** A digit of a row stands for a position below the number of choices of
    its item and below five. *)
Lemma infer_item_digit {T : Type} `{Scalar T} (vocab : gmap string nat)
  (model_logits : list PromptMessage -> result (list (list (list T)))) (do_RAG : bool)
  (data : InferenceItem) (row : Prediction) :
  infer_item vocab model_logits do_RAG data = inr row ->
  pred_id row = item_id data /\
  exists k, k < len_choices data /\ k < 5 /\ pred_answer row = str_of_nat (k + 1).
Proof.
  unfold infer_item. destruct do_RAG; [discriminate |].
  destruct (model_logits (item_messages data)) as [output|e]; simpl; [| discriminate].
  destruct (infer vocab output (len_choices data)) as [d|e] eqn:Hd; [| discriminate].
  intros E. injection E as <-. simpl. split; [reflexivity |].
  unfold infer in Hd. apply bind_Ok in Hd as (logits & _ & Hd).
  apply predict_value_digit in Hd as (k & Hk & Hk5 & -> & _). eauto.
Qed.

(** X4.  For every inference item, a digit that the inference scorer
    returns for the item's choice count is the number in front of one of
    the first five entries of the choices block, the block that the
    builder passes as the [choices] field to the template rendering the
    item's user message.  An entry from the sixth on is in the block as
    well, but its number is never returned. *)
Theorem prompt_digits_are_answer_digits {T : Type} `{Scalar T}
  (format : string -> list (string * string) -> result string)
  (q_plus no_q_plus : string) (row : ExamRecord) (item : InferenceItem)
  (vocab : gmap string nat) (logits : list T) :
  inference_item format q_plus no_q_plus row = Ok item ->
  (exists msg template kwargs,
     item_messages item = [mkMessage system system_prompt; mkMessage user msg] /\
     format template kwargs = Ok msg /\
     ("choices", choices_string (choices row)) ∈ kwargs /\
     choices_string (choices row) = join NL (map choice_entry (enumerate (choices row)))) /\
  (forall d, predict_value vocab logits (len_choices item) = Ok d ->
     exists k c, k < 5 /\ choices row !! k = Some c /\ d = str_of_nat (k + 1) /\
       map choice_entry (enumerate (choices row)) !! k = Some (d +:+ " - " +:+ c)) /\
  (forall k c, 5 <= k -> choices row !! k = Some c ->
     map choice_entry (enumerate (choices row)) !! k
     = Some (str_of_nat (k + 1) +:+ " - " +:+ c) /\
     predict_value vocab logits (len_choices item) <> Ok (str_of_nat (k + 1))).
Proof.
  intros Hitem. apply PromptFacts.inference_item_fields in Hitem as (msg & Hmsg & ->). simpl.
  split; [| split].
  - destruct (PromptMore.user_message_choices_field _ _ _ _ _ Hmsg)
      as (template & kwargs & _ & Hfmt & Hin).
    exists msg, template, kwargs. auto.
  - intros d Hd. apply predict_value_digit in Hd as (k & Hk & Hk5 & -> & _).
    destruct (lookup_lt_is_Some_2 (choices row) k Hk) as (c & Hc).
    exists k, c. split; [exact Hk5 |]. split; [exact Hc |]. split; [reflexivity |].
    apply PromptFacts.entries_lookup. exact Hc.
  - intros k c Hk Hc. split; [apply PromptFacts.entries_lookup; exact Hc |].
    intros Hd. apply predict_value_digit in Hd as (j & _ & Hj5 & Hj & _).
    unfold digit_of_prediction in Hj. apply str_of_nat_inj in Hj. lia.
Qed.

(** The sample record and logits: the scorer answers "2", the number in
    front of choice B. *)
Lemma prompt_digits_are_answer_digits_witness :
  exists k c, k < 5 /\ choices sample_record !! k = Some c /\ "2" = str_of_nat (k + 1) /\
    map choice_entry (enumerate (choices sample_record)) !! k = Some ("2" +:+ " - " +:+ c).
Proof.
  refine (proj1 (proj2 (prompt_digits_are_answer_digits
                          sample_format sample_q_plus sample_no_q_plus sample_record
                          (mkInferenceItem "row-0"
                             [mkMessage system system_prompt;
                              mkMessage user ("Passage: a passage Question: a question Choices: "
                                              +:+ choices_string ["A"; "B"; "C"; "D"])]
                             (Some 3%Z) 4)
                          sample_vocab sample_logits _)) "2" _).
  - vm_compute. reflexivity.
  - vm_compute. reflexivity.
Defined.

(** X18.  From the test records to the predictions: when the items are
    built and the loop ends, there is one prediction per record, in the
    order of the records.  The prediction of record [i] has the id of the
    record, and its answer is the number in front of one of the first five
    entries of the record's choices block, the block passed as the
    [choices] field to the template that rendered the user message of
    item [i]. *)
Theorem predictions_number_a_choice {T : Type} `{Scalar T}
  (format : string -> list (string * string) -> result string) (q_plus no_q_plus : string)
  (vocab : gmap string nat)
  (model_logits : list PromptMessage -> result (list (list (list T)))) (do_RAG : bool)
  (ds : list ExamRecord) (items : list InferenceItem) (rows : list Prediction) :
  test_df_to_process_df format ds q_plus no_q_plus = Ok items ->
  predict vocab model_logits do_RAG items = Written rows ->
  map pred_id rows = map id ds /\
  (forall i r, ds !! i = Some r ->
     exists item row msg template kwargs k c,
       items !! i = Some item /\ rows !! i = Some row /\
       pred_id row = id r /\
       item_messages item = [mkMessage system system_prompt; mkMessage user msg] /\
       format template kwargs = Ok msg /\
       ("choices", choices_string (choices r)) ∈ kwargs /\
       choices_string (choices r) = join NL (map choice_entry (enumerate (choices r))) /\
       k < 5 /\ choices r !! k = Some c /\
       pred_answer row = str_of_nat (k + 1) /\
       map choice_entry (enumerate (choices r)) !! k
       = Some (pred_answer row +:+ " - " +:+ c)).
Proof.
  intros Hitems Hrows. unfold predict in Hrows.
  pose proof (inference_loop_spec vocab model_logits do_RAG items []) as Hspec.
  rewrite Hrows in Hspec. destruct Hspec as (new & -> & Hnew). simpl. clear Hrows.
  apply mapM_Ok in Hitems.
  assert (Hat : forall i r, ds !! i = Some r ->
            exists item row, items !! i = Some item /\ new !! i = Some row /\
              inference_item format q_plus no_q_plus r = Ok item /\
              infer_item vocab model_logits do_RAG item = inr row).
  { intros i r Hr.
    destruct (Forall2_lookup_l _ _ _ _ _ Hitems Hr) as (item & Hitem & Hbuilt).
    destruct (Forall2_lookup_l _ _ _ _ _ Hnew Hitem) as (row & Hrow & Hscored).
    eauto 10. }
  split.
  - apply list_eq. intros i. rewrite !list_lookup_fmap.
    destruct (ds !! i) as [r|] eqn:Hr; simpl.
    + destruct (Hat i r Hr) as (item & row & _ & -> & Hbuilt & Hscored). simpl.
      apply infer_item_digit in Hscored as [Hid _].
      apply PromptFacts.inference_item_fields in Hbuilt as (msg & _ & ->).
      rewrite Hid. reflexivity.
    + apply lookup_ge_None in Hr.
      rewrite (Forall2_length _ _ _ Hitems), (Forall2_length _ _ _ Hnew) in Hr.
      rewrite (lookup_ge_None_2 new i Hr). reflexivity.
  - intros i r Hr. destruct (Hat i r Hr) as (item & row & Hitem & Hrow & Hbuilt & Hscored).
    apply infer_item_digit in Hscored as (Hid & k & Hk & Hk5 & Hd).
    apply PromptFacts.inference_item_fields in Hbuilt as (msg & Hmsg & ->).
    simpl in Hid, Hk.
    destruct (PromptMore.user_message_choices_field _ _ _ _ _ Hmsg)
      as (template & kwargs & _ & Hfmt & Hin).
    destruct (lookup_lt_is_Some_2 (choices r) k Hk) as (c & Hc).
    eexists. exists row, msg, template, kwargs, k, c.
    split; [exact Hitem |]. split; [exact Hrow |]. split; [exact Hid |].
    split; [reflexivity |]. split; [exact Hfmt |]. split; [exact Hin |].
    split; [reflexivity |]. split; [exact Hk5 |]. split; [exact Hc |].
    split; [exact Hd |]. rewrite Hd. apply PromptFacts.entries_lookup. exact Hc.
Qed.

(** The sample record, scored by the sample model: answer "2", the number
    in front of choice B. *)
Lemma predictions_number_a_choice_witness :
  exists item row msg template kwargs k c,
    [mkInferenceItem "row-0"
       [mkMessage system system_prompt;
        mkMessage user ("Passage: a passage Question: a question Choices: "
                        +:+ choices_string ["A"; "B"; "C"; "D"])]
       (Some 3%Z) 4] !! 0 = Some item /\
    [mkPrediction "row-0" "2"] !! 0 = Some row /\
    pred_id row = id sample_record /\
    item_messages item = [mkMessage system system_prompt; mkMessage user msg] /\
    sample_format template kwargs = Ok msg /\
    ("choices", choices_string (choices sample_record)) ∈ kwargs /\
    choices_string (choices sample_record)
    = join NL (map choice_entry (enumerate (choices sample_record))) /\
    k < 5 /\ choices sample_record !! k = Some c /\
    pred_answer row = str_of_nat (k + 1) /\
    map choice_entry (enumerate (choices sample_record)) !! k
    = Some (pred_answer row +:+ " - " +:+ c).
Proof.
  refine (proj2 (predictions_number_a_choice sample_format sample_q_plus sample_no_q_plus
                   sample_vocab sample_model false [sample_record]
                   [mkInferenceItem "row-0"
                      [mkMessage system system_prompt;
                       mkMessage user ("Passage: a passage Question: a question Choices: "
                                       +:+ choices_string ["A"; "B"; "C"; "D"])]
                      (Some 3%Z) 4]
                   [mkPrediction "row-0" "2"] _ _) 0 sample_record _).
  - vm_compute. reflexivity.
  - vm_compute. reflexivity.
  - reflexivity.
Defined.

End InferenceFacts.
